(** * accountsdb: a shallow embedding of [AccountsDB]

    The Python module [accountsdb.py] keeps a dictionary from user keys to
    opaque identifiers, loads it from a pickle file when the object is built,
    and writes it back on [flush].  This file embeds the class in Rocq and
    proves properties of its methods.

    Modelling conventions.
    - Python [str] values are [string]s of bytes, the UTF-8 encoding of the
      text; ['!'] is one byte and is part of no other character, so
      [split('!', 1)] cuts the bytes where it cuts the text.
    - [str.lower], [str.islower] and [repr] are builtins of the interpreter
      that rest on the Unicode tables; they are inputs of the model (fields
      of [Env]), and a theorem assumes of them only what it states.  The
      ASCII case rules of [Str] are what they do on ASCII text.
    - Python objects that a pickle can hold are values of [pyobj]; a [dict]
      is an association list in insertion order, which is the order
      [dict.items()] iterates in.
    - Exceptions are values of [exn] (all of them instances of Python's
      [Exception]); a computation that may raise returns [result A].
    - Methods that mutate [self] or touch the environment run in the
      state-and-exception monad [M] over [State].
    - The [log] calls only write to the diagnostic sink and never change
      control flow; they are left out. *)

From Stdlib Require Import Ascii String ZArith List Bool Lia.
From stdpp Require Import base decidable option list strings pretty gmap.

Set Warnings "-register-all".

Local Open Scope string_scope.
Local Open Scope list_scope.

(** ** Strings: ASCII case and [split] *)

Module Str.

Definition is_upper (c : ascii) : bool :=
  let n := nat_of_ascii c in Nat.leb 65 n && Nat.leb n 90.

Definition is_lower (c : ascii) : bool :=
  let n := nat_of_ascii c in Nat.leb 97 n && Nat.leb n 122.

Definition lower_char (c : ascii) : ascii :=
  if is_upper c then ascii_of_nat (nat_of_ascii c + 32) else c.

(** What [str.lower()] does on ASCII text. *)
Fixpoint ascii_lower (s : string) : string :=
  match s with
  | EmptyString => EmptyString
  | String c r => String (lower_char c) (ascii_lower r)
  end.

Fixpoint has_upper (s : string) : bool :=
  match s with
  | EmptyString => false
  | String c r => is_upper c || has_upper r
  end.

Fixpoint has_lower (s : string) : bool :=
  match s with
  | EmptyString => false
  | String c r => is_lower c || has_lower r
  end.

(** What [str.islower()] does on ASCII text: at least one cased character,
    and no cased character that is not lowercase. *)
Definition ascii_islower (s : string) : bool :=
  has_lower s && negb (has_upper s).

(** Every byte is an ASCII character. *)
Fixpoint is_ascii (s : string) : bool :=
  match s with
  | EmptyString => true
  | String c r => Nat.ltb (nat_of_ascii c) 128 && is_ascii r
  end.

(** Does [s] contain the character [sep]? *)
Fixpoint contains (sep : ascii) (s : string) : bool :=
  match s with
  | EmptyString => false
  | String c r => Ascii.eqb c sep || contains sep r
  end.

(** The two pieces around the first [sep] of [s], when there is one. *)
Fixpoint cut (sep : ascii) (s : string) : option (string * string) :=
  match s with
  | EmptyString => None
  | String c r =>
      if Ascii.eqb c sep then Some (EmptyString, r)
      else match cut sep r with
           | Some (a, b) => Some (String c a, b)
           | None => None
           end
  end.

(** [s.split(sep, 1)] for a one-character separator. *)
Definition split1 (sep : ascii) (s : string) : list string :=
  match cut sep s with
  | Some (a, b) => [a; b]
  | None => [s]
  end.

Definition hex_digit (n : nat) : ascii :=
  ascii_of_nat (if Nat.ltb n 10 then 48 + n else 87 + n).

Definition backslash : ascii := ascii_of_nat 92.
Definition double_quote : ascii := ascii_of_nat 34.
Definition apostrophe : ascii := ascii_of_nat 39.

(** The escape of one character inside quotes [q], as [repr] writes it. *)
Definition repr_char (q c : ascii) : string :=
  let n := nat_of_ascii c in
  if Ascii.eqb c q || Ascii.eqb c backslash then String backslash (String c EmptyString)
  else if Nat.eqb n 9 then String backslash "t"
  else if Nat.eqb n 10 then String backslash "n"
  else if Nat.eqb n 13 then String backslash "r"
  else if Nat.ltb n 32 || Nat.eqb n 127 then
    String backslash
      (String "x" (String (hex_digit (Nat.div n 16))
                     (String (hex_digit (Nat.modulo n 16)) EmptyString)))
  else String c EmptyString.

Fixpoint repr_body (q : ascii) (s : string) : string :=
  match s with
  | EmptyString => EmptyString
  | String c r => append (repr_char q c) (repr_body q r)
  end.

(** What [repr] does on ASCII text: double quotes when the text has an
    apostrophe and no double quote, apostrophes otherwise. *)
Definition ascii_repr (s : string) : string :=
  let q :=
    if contains apostrophe s && negb (contains double_quote s) then double_quote
    else apostrophe in
  String q (append (repr_body q s) (String q EmptyString)).

End Str.

(** ** Exceptions *)

Inductive exn_class : Type :=
| KeyError
| ValueError
| AttributeError
| TypeError
| FileNotFoundError
| PermissionError
| UnpicklingError
| OSError
| RuntimeError.

Record exn : Type := Exn { exn_cls : exn_class; exn_msg : string }.

Definition result (A : Type) : Type := exn + A.

Definition is_KeyError (e : exn) : bool :=
  match exn_cls e with KeyError => true | _ => false end.

Definition rbind {A B} (r : result A) (k : A -> result B) : result B :=
  match r with
  | inl e => inl e
  | inr a => k a
  end.

Declare Scope result_scope.
Delimit Scope result_scope with result.
Notation "'let*' x := c 'in' k" := (rbind c (fun x => k))
  (at level 10, x pattern, c at level 100, k at level 200,
   format "'[v' 'let*'  x  :=  c  'in' '/' k ']'") : result_scope.

(** ** Python objects *)

(** Hashable objects, the ones that may be dictionary keys. *)
Inductive pykey : Type :=
| KNone
| KInt (z : Z)
| KStr (s : string).

Inductive pyobj : Type :=
| PyNone
| PyInt (z : Z)
| PyStr (s : string)
| PyList (l : list pyobj)
| PyDict (d : list (pykey * pyobj)).

Abbreviation pydict := (list (pykey * pyobj)).

Global Instance pykey_eq_dec : EqDecision pykey.
Proof. solve_decision. Defined.

Definition type_name (o : pyobj) : string :=
  match o with
  | PyNone => "NoneType"
  | PyInt _ => "int"
  | PyStr _ => "str"
  | PyList _ => "list"
  | PyDict _ => "dict"
  end.

Definition key_type_name (k : pykey) : string :=
  match k with
  | KNone => "NoneType"
  | KInt _ => "int"
  | KStr _ => "str"
  end.

Definition no_attribute (ty attr : string) : exn :=
  Exn AttributeError ("'" +:+ ty +:+ "' object has no attribute '" +:+ attr +:+ "'").

(** *** Dictionaries *)

Module Dict.

(** [d.get(k)] without the default: [None] when [k] is not a key. *)
Fixpoint lookup (k : pykey) (d : pydict) : option pyobj :=
  match d with
  | [] => None
  | (k', v) :: r => if decide (k' = k) then Some v else lookup k r
  end.

(** [k in d] *)
Definition mem (k : pykey) (d : pydict) : bool :=
  match lookup k d with
  | Some _ => true
  | None => false
  end.

(** The keys of a dictionary are pairwise distinct. *)
Fixpoint distinct (d : pydict) : bool :=
  match d with
  | [] => true
  | (k, _) :: r => negb (mem k r) && distinct r
  end.

Definition is_str (k : pykey) : bool :=
  match k with KStr _ => true | _ => false end.

(** Every key is a [str]. *)
Definition str_keyed (d : pydict) : bool :=
  forallb (fun kv => is_str (fst kv)) d.

(** [d.get(k)] *)
Definition get (k : pykey) (d : pydict) : pyobj :=
  match lookup k d with
  | Some v => v
  | None => PyNone
  end.

(** [d[k] = v]: an existing key keeps its position, a new one goes last. *)
Fixpoint setitem (k : pykey) (v : pyobj) (d : pydict) : pydict :=
  match d with
  | [] => [(k, v)]
  | (k', v') :: r =>
      if decide (k' = k) then (k', v) :: r else (k', v') :: setitem k v r
  end.

Fixpoint remove (k : pykey) (d : pydict) : pydict :=
  match d with
  | [] => []
  | (k', v') :: r => if decide (k' = k) then r else (k', v') :: remove k r
  end.

Definition key_repr (k : pykey) : string :=
  match k with
  | KNone => "None"
  | KInt z => pretty z
  | KStr s => "'" +:+ s +:+ "'"
  end.

(** [del d[k]]: [KeyError] when [k] is not a key. *)
Definition delitem (k : pykey) (d : pydict) : result pydict :=
  match lookup k d with
  | Some _ => inr (remove k d)
  | None => inl (Exn KeyError (key_repr k))
  end.

End Dict.

(** ** The environment of the class *)

(** What a path of the file system holds: a complete pickle of an object, or
    bytes that [pickle.load] rejects. *)
Inductive fcontent : Type :=
| Pickle (o : pyobj)
| Garbage (bytes : string).

Record fnode : Type := File { readable : bool; content : fcontent }.

(** The collaborators the class consumes.  Their outcomes are decided outside
    the program, so they are inputs of the model:
    - [dirize] is [conf.supybot.directories.data.dirize];
    - [getUser prefix] is the outcome of [ircdb.users.getUser(prefix).name];
    - [open_fault], [dump_fault] and [move_fault] say whether opening the
      temporary file, writing the pickle (and closing the file) and
      [shutil.move] fail; a failed dump leaves the bytes written so far, a
      failed move may leave a partial copy at its destination;
    - [str_lower], [str_islower] and [str_repr] are the interpreter's
      [str.lower], [str.islower] and [repr] on a [str]. *)
Record Env : Type := {
  dirize : string -> string;
  getUser : string -> result string;
  open_fault : option exn;
  dump_fault : option (exn * string);
  move_fault : option (exn * option string);
  str_lower : string -> string;
  str_islower : string -> bool;
  str_repr : string -> string
}.

(** ** The class *)

Definition MODES : list string := ["accounts"; "identhost"; "nicks"].
Definition DEFAULT_MODE : string := "accounts".

Record AccountsDB : Type := {
  db : pyobj;
  _plugin_name : string;
  filename : string;
  case_sensitive : bool;
  addressing_mode : string
}.

Definition with_db (o : pyobj) (a : AccountsDB) : AccountsDB :=
  {| db := o; _plugin_name := _plugin_name a; filename := filename a;
     case_sensitive := case_sensitive a; addressing_mode := addressing_mode a |}.

(** The mutable world of a method call: the object, the file system and the
    prefixes handed to [ircdb.users.getUser] so far, most recent first. *)
Record State : Type := {
  self : AccountsDB;
  fs : gmap string fnode;
  getUser_calls : list string
}.

Definition with_self (a : AccountsDB) (st : State) : State :=
  {| self := a; fs := fs st; getUser_calls := getUser_calls st |}.

Definition with_fs (f : gmap string fnode) (st : State) : State :=
  {| self := self st; fs := f; getUser_calls := getUser_calls st |}.

(** *** The state-and-exception monad *)

Definition M (A : Type) : Type := State -> result A * State.

Definition ret {A} (a : A) : M A := fun st => (inr a, st).

Definition raise {A} (e : exn) : M A := fun st => (inl e, st).

Definition bind {A B} (m : M A) (k : A -> M B) : M B :=
  fun st =>
    match m st with
    | (inr a, st') => k a st'
    | (inl e, st') => (inl e, st')
    end.

(** [try: m except Exception as e: h e] *)
Definition try_except {A} (m : M A) (h : exn -> M A) : M A :=
  fun st =>
    match m st with
    | (inr a, st') => (inr a, st')
    | (inl e, st') => h e st'
    end.

Definition lift {A} (r : result A) : M A := fun st => (r, st).

Definition gets {A} (f : State -> A) : M A := fun st => (inr (f st), st).

Declare Scope M_scope.
Delimit Scope M_scope with M.
Notation "'let*' x := c 'in' k" := (bind c (fun x => k))
  (at level 10, x pattern, c at level 100, k at level 200,
   format "'[v' 'let*'  x  :=  c  'in' '/' k ']'") : M_scope.

(** ** The methods *)

(** [a, b = l]: unpacking a list into two names. *)
Definition unpack2 (l : list string) : result (string * string) :=
  match l with
  | [a; b] => inr (a, b)
  | [] => inl (Exn ValueError "not enough values to unpack (expected 2, got 0)")
  | [_] => inl (Exn ValueError "not enough values to unpack (expected 2, got 1)")
  | _ => inl (Exn ValueError "too many values to unpack (expected 2)")
  end.

(** [ircdb.users.getUser(prefix).name], recorded in the trace of lookups. *)
Definition looked_up (prefix : string) (st : State) : State :=
  {| self := self st; fs := fs st; getUser_calls := prefix :: getUser_calls st |}.

Definition call_getUser (env : Env) (prefix : string) : M string :=
  fun st => (getUser env prefix, looked_up prefix st).

Definition _get_key (env : Env) (prefix : string) : M string :=
  (let* (nick, identhost) := lift (unpack2 (Str.split1 "!" prefix)) in
   let* mode := gets (fun st => addressing_mode (self st)) in
   if String.eqb mode "accounts" then
     try_except (call_getUser env prefix)
       (fun e => if is_KeyError e then ret identhost else raise e)
   else if String.eqb mode "identhost" then
     ret identhost
   else if String.eqb mode "nicks" then
     ret nick
   else
     raise (Exn ValueError ("Unknown addressing mode " +:+ str_repr env mode)))%M.

(** [self.db[user] = newId] *)
Definition db_setitem (user : string) (newId : pyobj) : M unit :=
  fun st =>
    match db (self st) with
    | PyDict d =>
        (inr tt, with_self (with_db (PyDict (Dict.setitem (KStr user) newId d)) (self st)) st)
    | PyList _ =>
        (inl (Exn TypeError "list indices must be integers or slices, not str"), st)
    | o =>
        (inl (Exn TypeError ("'" +:+ type_name o +:+ "' object does not support item assignment")), st)
    end.

(** [self.db.get(user)] *)
Definition db_get (user : string) : M pyobj :=
  fun st =>
    match db (self st) with
    | PyDict d => (inr (Dict.get (KStr user) d), st)
    | o => (inl (no_attribute (type_name o) "get"), st)
    end.

Definition set (env : Env) (prefix : string) (newId : pyobj) : M unit :=
  (let* user := _get_key env prefix in
   let* cs := gets (fun st => case_sensitive (self st)) in
   let user := if negb cs then str_lower env user else user in
   db_setitem user newId)%M.

Definition get (env : Env) (prefix : string) : M pyobj :=
  (let* user := _get_key env prefix in
   let* cs := gets (fun st => case_sensitive (self st)) in
   let user := if negb cs then str_lower env user else user in
   db_get user)%M.

(** *** Construction *)

(** [open(path, 'rb')] *)
Definition open_rb (files : gmap string fnode) (path : string) : result fcontent :=
  match files !! path with
  | None =>
      inl (Exn FileNotFoundError ("[Errno 2] No such file or directory: '" +:+ path +:+ "'"))
  | Some f =>
      if readable f then inr (content f)
      else inl (Exn PermissionError ("[Errno 13] Permission denied: '" +:+ path +:+ "'"))
  end.

(** [pickle.load(f)] *)
Definition pickle_load (c : fcontent) : result pyobj :=
  match c with
  | Pickle o => inr o
  | Garbage _ => inl (Exn UnpicklingError "pickle data was truncated")
  end.

(** [key.islower()] *)
Definition key_islower (env : Env) (k : pykey) : result bool :=
  match k with
  | KStr s => inr (str_islower env s)
  | _ => inl (no_attribute (key_type_name k) "islower")
  end.

(** [key.lower()] *)
Definition key_lower (env : Env) (k : pykey) : result pykey :=
  match k with
  | KStr s => inr (KStr (str_lower env s))
  | _ => inl (no_attribute (key_type_name k) "lower")
  end.

(** [self.db.copy().items()] *)
Definition copy_items (o : pyobj) : result pydict :=
  match o with
  | PyDict d => inr d
  | PyList _ => inl (no_attribute "list" "items")
  | _ => inl (no_attribute (type_name o) "copy")
  end.

(** The loop of [__init__] over the items of the copy; [d] is [self.db],
    which the body updates in place. *)
Fixpoint case_shift (env : Env) (items : pydict) (d : pydict) : result pydict :=
  match items with
  | [] => inr d
  | (key, val) :: rest =>
      (let* low := key_islower env key in
       if negb low then
         let* lkey := key_lower env key in
         let d1 := Dict.setitem lkey val d in
         let* d2 := Dict.delitem key d1 in
         case_shift env rest d2
       else
         case_shift env rest d)%result
  end.

(** The [else] branch of the [try] statement of [__init__]; [o] is the
    object just stored in [self.db].  When the loop starts, the copy and
    [self.db] hold the same items. *)
Definition normalize (env : Env) (case_sensitive : bool) (o : pyobj) : result pyobj :=
  if negb case_sensitive then
    (let* items := copy_items o in
     let* d' := case_shift env items items in
     inr (PyDict d'))%result
  else inr o.

(** The body of the [try] statement of [__init__]. *)
Definition load_db (files : gmap string fnode) (path : string) : result pyobj :=
  (let* f := open_rb files path in pickle_load f)%result.

Definition __init__ (env : Env) (files : gmap string fnode)
    (plugin_name filename : string) (addressing_mode : string)
    (case_sensitive : bool) : result AccountsDB :=
  let self0 :=
    {| db := PyDict [];
       _plugin_name := plugin_name;
       filename := dirize env filename;
       case_sensitive := case_sensitive;
       addressing_mode := addressing_mode |} in
  match load_db files (dirize env filename) with
  | inl e => inr self0
  | inr o =>
      (let* o' := normalize env case_sensitive o in
       inr (with_db o' self0))%result
  end.

(** *** Flush *)

Definition written (files : gmap string fnode) (path : string) (c : fcontent) : gmap string fnode :=
  let r := match files !! path with Some f => readable f | None => true end in
  <[path := File r c]> files.

(** [open(path, 'wb')]: the file is created, or truncated. *)
Definition open_wb (env : Env) (path : string) : M unit :=
  fun st =>
    match open_fault env with
    | Some e => (inl e, st)
    | None => (inr tt, with_fs (written (fs st) path (Garbage "")) st)
    end.

(** [pickle.dump(self.db, f, 2)] and the close of [f]. *)
Definition pickle_dump (env : Env) (path : string) : M unit :=
  fun st =>
    match dump_fault env with
    | Some (e, partial) => (inl e, with_fs (written (fs st) path (Garbage partial)) st)
    | None => (inr tt, with_fs (written (fs st) path (Pickle (db (self st)))) st)
    end.

(** [shutil.move(src, dst)] *)
Definition shutil_move (env : Env) (src dst : string) : M unit :=
  fun st =>
    match move_fault env with
    | Some (e, None) => (inl e, st)
    | Some (e, Some partial) =>
        (inl e, with_fs (written (fs st) dst (Garbage partial)) st)
    | None =>
        match fs st !! src with
        | Some f => (inr tt, with_fs (<[dst := f]> (delete src (fs st))) st)
        | None =>
            (inl (Exn FileNotFoundError ("[Errno 2] No such file or directory: '" +:+ src +:+ "'")), st)
        end
    end.

Definition flush (env : Env) : M unit :=
  (let* name := gets (fun st => filename (self st)) in
   let tmp_filename := name +:+ ".tmp" in
   try_except
     (let* _ := open_wb env tmp_filename in
      let* _ := pickle_dump env tmp_filename in
      shutil_move env tmp_filename name)
     (fun e => ret tt))%M.

(** ** Vocabulary of the statements *)

(** The error of calling [get] or [set] with a prefix that has no ['!']: the
    unpacking of the one-element list that [split] returns. *)
Definition InvalidPrefix : exn :=
  Exn ValueError "not enough values to unpack (expected 2, got 1)".

(** What the theorems may assume of [str.lower] and [str.islower]: a string
    that [islower] accepts is its own lowercase form; lowercasing twice is
    lowercasing once; on ASCII text they follow the ASCII rules. *)
Definition islower_is_fixed (env : Env) : Prop :=
  forall s, str_islower env s = true -> str_lower env s = s.

Definition lower_idempotent (env : Env) : Prop :=
  forall s, str_lower env (str_lower env s) = str_lower env s.

Definition ascii_rules (env : Env) : Prop :=
  forall s, Str.is_ascii s = true ->
    str_lower env s = Str.ascii_lower s /\ str_islower env s = Str.ascii_islower s.

(** A key that [str.islower] accepts. *)
Definition lowered (env : Env) (k : pykey) : bool :=
  match k with
  | KStr s => str_islower env s
  | _ => false
  end.

(** Two keys differ only by case: they are different strings with the same
    lowercase form. *)
Definition case_variants (env : Env) (k1 k2 : pykey) : Prop :=
  exists s1 s2, k1 = KStr s1 /\ k2 = KStr s2 /\ s1 <> s2 /\
    str_lower env s1 = str_lower env s2.

(** A state around an object, with no file and no lookup made yet. *)
Definition state_of (a : AccountsDB) : State :=
  {| self := a; fs := ∅; getUser_calls := [] |}.

(** The canonical key of a prefix: what [get] and [set] compute before they
    touch [self.db]. *)
Definition canonical_key (env : Env) (prefix : string) : M string :=
  (let* user := _get_key env prefix in
   let* cs := gets (fun st => case_sensitive (self st)) in
   ret (if negb cs then str_lower env user else user))%M.

Definition key_of (env : Env) (a : AccountsDB) (prefix : string) : result string :=
  fst (canonical_key env prefix (state_of a)).

(** Calls made on the object by its owner, who catches what they raise. *)
Inductive call : Type :=
| Call_set (prefix : string) (newId : pyobj)
| Call_get (prefix : string)
| Call_flush.

Definition run_call (env : Env) (c : call) (st : State) : State :=
  match c with
  | Call_set prefix newId => snd (set env prefix newId st)
  | Call_get prefix => snd (get env prefix st)
  | Call_flush => snd (flush env st)
  end.

Fixpoint run_calls (env : Env) (cs : list call) (st : State) : State :=
  match cs with
  | [] => st
  | c :: r => run_calls env r (run_call env c st)
  end.

(** No [set] among the calls [cs], run from [st], addresses the key [target]. *)
Fixpoint no_set_on (env : Env) (target : string) (cs : list call) (st : State) : bool :=
  match cs with
  | [] => true
  | c :: r =>
      match c with
      | Call_set prefix _ =>
          match key_of env (self st) prefix with
          | inr k => negb (String.eqb k target)
          | inl _ => true
          end
      | _ => true
      end && no_set_on env target r (run_call env c st)
  end.

(** The states of the storage file that [__init__] tells apart. *)
Inductive file_state : Type :=
| Absent
| Unreadable
| Corrupt
| WellFormed (o : pyobj).

Definition storage_state (files : gmap string fnode) (path : string) : file_state :=
  match files !! path with
  | None => Absent
  | Some f =>
      if readable f then
        match content f with
        | Pickle o => WellFormed o
        | Garbage _ => Corrupt
        end
      else Unreadable
  end.

(** A dictionary whose keys are all [str]. *)
Definition str_dict (o : pyobj) : bool :=
  match o with
  | PyDict d => Dict.str_keyed d && Dict.distinct d
  | _ => false
  end.

(** The file states on which the normalization of [__init__] has nothing to
    reject: the load fails, or the store is case-sensitive, or the pickle
    holds a dictionary with [str] keys. *)
Definition loads_cleanly (case_sensitive : bool) (f : file_state) : bool :=
  match f with
  | WellFormed o => case_sensitive || str_dict o
  | _ => true
  end.

(** An environment in which no account is known and no write fails.  Its
    string methods, like those of the other environments below, are the
    ASCII rules: it stands for the interpreter on ASCII text. *)
Definition quiet_env : Env :=
  {| dirize := fun f => "data/" +:+ f;
     getUser := fun prefix => inl (Exn KeyError prefix);
     open_fault := None;
     dump_fault := None;
     move_fault := None;
     str_lower := Str.ascii_lower;
     str_islower := Str.ascii_islower;
     str_repr := Str.ascii_repr |}.

(** A data directory whose only file is a pickle of [o]. *)
Definition pickled_at (path : string) (o : pyobj) : gmap string fnode :=
  {[ path := File true (Pickle o) ]}.

(** An environment with one account, one user the directory does not know,
    and one prefix on which the directory itself fails. *)
Definition directory_env : Env :=
  {| dirize := fun f => "data/" +:+ f;
     getUser := fun prefix =>
       if String.eqb prefix "alice!alice@example.org" then inr "Alice"
       else if String.eqb prefix "eve!eve@example.org" then
         inl (Exn RuntimeError "user database is locked")
       else inl (Exn KeyError prefix);
     open_fault := None;
     dump_fault := None;
     move_fault := None;
     str_lower := Str.ascii_lower;
     str_islower := Str.ascii_islower;
     str_repr := Str.ascii_repr |}.

(** A store with an empty mapping. *)
Definition empty_store (mode : string) (cs : bool) : AccountsDB :=
  {| db := PyDict [];
     _plugin_name := "Plugin";
     filename := "data/accounts.db";
     case_sensitive := cs;
     addressing_mode := mode |}.

(** The mapping holds [v] under the key [k], in a store with the mode and
    the case policy of [a]. *)
Definition holds (a : AccountsDB) (k : string) (v : pyobj) (st : State) : Prop :=
  addressing_mode (self st) = addressing_mode a /\
  case_sensitive (self st) = case_sensitive a /\
  exists d, db (self st) = PyDict d /\ Dict.lookup (KStr k) d = Some v.

(** An environment in which the disk fills up while the pickle is written. *)
Definition disk_full_env : Env :=
  {| dirize := fun f => "data/" +:+ f;
     getUser := fun prefix => inl (Exn KeyError prefix);
     open_fault := None;
     dump_fault := Some (Exn OSError "[Errno 28] No space left on device", "}q");
     move_fault := None;
     str_lower := Str.ascii_lower;
     str_islower := Str.ascii_islower;
     str_repr := Str.ascii_repr |}.

(** A store with one entry in memory, over a file written by an earlier
    flush of an empty mapping. *)
Definition unsaved_state : State :=
  {| self := with_db (PyDict [(KStr "bob", PyStr "bob42")]) (empty_store "nicks" false);
     fs := pickled_at "data/accounts.db" (PyDict []);
     getUser_calls := [] |}.

(** ** Vocabulary of the further properties *)

(** The error of [_get_key] on a mode it does not know. *)
Definition unknown_mode (env : Env) (mode : string) : exn :=
  Exn ValueError ("Unknown addressing mode " +:+ str_repr env mode).

Definition is_dict (o : pyobj) : bool :=
  match o with PyDict _ => true | _ => false end.

(** A [str] key that is its own lowercase form: what [set] writes in a
    case-insensitive store. *)
Definition fixed_key (env : Env) (k : pykey) : bool :=
  match k with
  | KStr s => String.eqb (str_lower env s) s
  | _ => false
  end.

(** Every key is a [str] that is its own lowercase form. *)
Definition folded (env : Env) (d : pydict) : bool :=
  forallb (fun kv => fixed_key env (fst kv)) d.

(** The value of the last item of [items] whose key [islower] rejects and
    whose key lowercases to [t]. *)
Fixpoint shifted (env : Env) (items : pydict) (t : string) : option pyobj :=
  match items with
  | [] => None
  | (k, v) :: r =>
      match shifted env r t with
      | Some v' => Some v'
      | None =>
          match k with
          | KStr s =>
              if negb (str_islower env s) && String.eqb (str_lower env s) t then Some v
              else None
          | _ => None
          end
      end
  end.

(** No step of [flush] fails. *)
Definition no_faults (env : Env) : bool :=
  match open_fault env, dump_fault env, move_fault env with
  | None, None, None => true
  | _, _, _ => false
  end.

(** [flush] fails before it reaches [shutil.move]. *)
Definition fails_before_move (env : Env) : bool :=
  match open_fault env, dump_fault env with
  | None, None => false
  | _, _ => true
  end.

(** No unreadable file is in the way at the temporary path of [name]: a
    file opened with ['wb'] keeps the permissions it had. *)
Definition tmp_usable (files : gmap string fnode) (name : string) : bool :=
  match files !! (name +:+ ".tmp") with
  | Some f => readable f
  | None => true
  end.

(** The state of a store [a] over the file system of [st]. *)
Definition reopened (a : AccountsDB) (st : State) : State :=
  with_self a st.

Definition is_flush (c : call) : bool :=
  match c with Call_flush => true | _ => false end.

(** ** Properties of the string operations *)

Module StrFacts.
Import Str.

Lemma lower_char_not_upper c : is_upper (lower_char c) = false.
Proof. destruct c as [[] [] [] [] [] [] [] []]; reflexivity. Qed.

Lemma lower_char_id c : is_upper c = false -> lower_char c = c.
Proof. unfold lower_char. intros ->. reflexivity. Qed.

Lemma has_upper_lower s : has_upper (ascii_lower s) = false.
Proof.
  induction s as [|c r IH]; simpl; [reflexivity|].
  rewrite lower_char_not_upper, IH. reflexivity.
Qed.

Lemma lower_id s : has_upper s = false -> ascii_lower s = s.
Proof.
  induction s as [|c r IH]; simpl; [reflexivity|].
  intros [Hc Hr]%orb_false_iff.
  rewrite (lower_char_id _ Hc), (IH Hr). reflexivity.
Qed.

Lemma islower_lower_id s : ascii_islower s = true -> ascii_lower s = s.
Proof.
  unfold ascii_islower. intros [_ H]%andb_true_iff.
  apply lower_id. destruct (has_upper s); [discriminate | reflexivity].
Qed.

Lemma cut_none sep s : contains sep s = false -> cut sep s = None.
Proof.
  induction s as [|c r IH]; simpl; [reflexivity|].
  intros [Hc Hr]%orb_false_iff. rewrite Hc, (IH Hr). reflexivity.
Qed.

Lemma cut_some sep s : contains sep s = true -> exists a b, cut sep s = Some (a, b).
Proof.
  induction s as [|c r IH]; simpl; [discriminate|].
  destruct (Ascii.eqb c sep); simpl; [eauto|].
  intros H. destruct (IH H) as (a & b & ->). eauto.
Qed.

Lemma cut_app sep a b :
  contains sep a = false -> cut sep (a +:+ String sep b) = Some (a, b).
Proof.
  induction a as [|c r IH]; simpl.
  - intros _. rewrite Ascii.eqb_refl. reflexivity.
  - intros [Hc Hr]%orb_false_iff. rewrite Hc, (IH Hr). reflexivity.
Qed.

Lemma cut_inv sep s a b :
  cut sep s = Some (a, b) -> s = a +:+ String sep b /\ contains sep a = false.
Proof.
  revert a. induction s as [|c r IH]; simpl; intros a; [discriminate|].
  destruct (Ascii.eqb c sep) eqn:E.
  - intros [= <- <-]. apply Ascii.eqb_eq in E. subst. split; reflexivity.
  - destruct (cut sep r) as [[a' b']|]; [|discriminate].
    intros [= <- <-]. destruct (IH a' eq_refl) as [-> H].
    simpl. rewrite E, H. split; reflexivity.
Qed.

Lemma append_length a b : String.length (a +:+ b) = String.length a + String.length b.
Proof. induction a as [|c r IH]; simpl; [reflexivity | rewrite IH; reflexivity]. Qed.

Lemma append_tmp_ne s : s +:+ ".tmp" <> s.
Proof.
  intros H. apply (f_equal String.length) in H.
  rewrite append_length in H. simpl in H. lia.
Qed.

Lemma lower_lower s : ascii_lower (ascii_lower s) = ascii_lower s.
Proof. apply lower_id, has_upper_lower. Qed.

End StrFacts.

(** ** Properties of the dictionary operations *)

Module DictFacts.
Import Dict.

Lemma mem_cons k k' v d :
  mem k ((k', v) :: d) = if decide (k' = k) then true else mem k d.
Proof. unfold mem. simpl. destruct (decide (k' = k)); reflexivity. Qed.

Lemma lookup_setitem_eq k v d : lookup k (setitem k v d) = Some v.
Proof.
  induction d as [|[k' v'] r IH]; simpl.
  - destruct (decide (k = k)); congruence.
  - destruct (decide (k' = k)) as [E|N]; simpl.
    + destruct (decide (k' = k)); congruence.
    + destruct (decide (k' = k)); congruence.
Qed.

Lemma lookup_setitem_ne k k' v d :
  k <> k' -> lookup k' (setitem k v d) = lookup k' d.
Proof.
  intros Hne. induction d as [|[k0 v0] r IH]; simpl.
  - destruct (decide (k = k')); congruence.
  - destruct (decide (k0 = k)) as [E|N]; simpl.
    + subst. destruct (decide (k = k')); congruence.
    + destruct (decide (k0 = k')); congruence.
Qed.

Lemma get_setitem_eq k v d : get k (setitem k v d) = v.
Proof. unfold get. rewrite lookup_setitem_eq. reflexivity. Qed.

Lemma get_setitem_ne k k' v d : k <> k' -> get k' (setitem k v d) = get k' d.
Proof. intros H. unfold get. rewrite lookup_setitem_ne by exact H. reflexivity. Qed.

Lemma mem_setitem_eq k v d : mem k (setitem k v d) = true.
Proof. unfold mem. rewrite lookup_setitem_eq. reflexivity. Qed.

Lemma mem_setitem_ne k k' v d : k <> k' -> mem k' (setitem k v d) = mem k' d.
Proof. intros H. unfold mem. rewrite lookup_setitem_ne by exact H. reflexivity. Qed.

Lemma mem_setitem_mono_l k k' v d : mem k' d = true -> mem k' (setitem k v d) = true.
Proof.
  intros H. destruct (decide (k = k')) as [->|N].
  - apply mem_setitem_eq.
  - rewrite mem_setitem_ne by exact N. exact H.
Qed.

Lemma distinct_setitem k v d : distinct d = true -> distinct (setitem k v d) = true.
Proof.
  induction d as [|[k' v'] r IH]; simpl; [reflexivity|].
  intros [Hm Hd]%andb_true_iff.
  destruct (decide (k' = k)) as [E|N]; simpl.
  - rewrite Hm, Hd. reflexivity.
  - rewrite (mem_setitem_ne _ _ _ _ (not_eq_sym N)), Hm, (IH Hd). reflexivity.
Qed.

Lemma lookup_remove_ne k k' d : k <> k' -> lookup k' (remove k d) = lookup k' d.
Proof.
  intros Hne. induction d as [|[k0 v0] r IH]; simpl; [reflexivity|].
  destruct (decide (k0 = k)) as [E|N]; simpl.
  - subst. destruct (decide (k = k')); congruence.
  - destruct (decide (k0 = k')); congruence.
Qed.

Lemma mem_remove_ne k k' d : k <> k' -> mem k' (remove k d) = mem k' d.
Proof. intros H. unfold mem. rewrite lookup_remove_ne by exact H. reflexivity. Qed.

Lemma mem_remove_eq k d : distinct d = true -> mem k (remove k d) = false.
Proof.
  induction d as [|[k' v'] r IH]; simpl; [reflexivity|].
  intros [Hm Hd]%andb_true_iff.
  destruct (decide (k' = k)) as [E|N].
  - subst. destruct (mem k r); [discriminate | reflexivity].
  - rewrite mem_cons. destruct (decide (k' = k)); [contradiction|]. exact (IH Hd).
Qed.

Lemma distinct_remove k d : distinct d = true -> distinct (remove k d) = true.
Proof.
  induction d as [|[k' v'] r IH]; simpl; [reflexivity|].
  intros [Hm Hd]%andb_true_iff.
  destruct (decide (k' = k)) as [E|N]; simpl; [exact Hd|].
  rewrite (mem_remove_ne _ _ _ (not_eq_sym N)), Hm, (IH Hd). reflexivity.
Qed.

Lemma delitem_mem k d : mem k d = true -> delitem k d = inr (remove k d).
Proof. unfold mem, delitem. destruct (lookup k d); [reflexivity | discriminate]. Qed.

Lemma get_absent k d : mem k d = false -> get k d = PyNone.
Proof. unfold mem, get. destruct (lookup k d); [discriminate | reflexivity]. Qed.

End DictFacts.

(** ** The normalization loop *)

Module ShiftFacts.
Import Dict DictFacts.

Lemma str_keyed_cons k v d :
  str_keyed ((k, v) :: d) = true -> (exists s, k = KStr s) /\ str_keyed d = true.
Proof.
  unfold str_keyed. simpl. intros [Hk Hd]%andb_true_iff. split; [|exact Hd].
  destruct k; try discriminate. eauto.
Qed.

Lemma mem_head k v d : mem k ((k, v) :: d) = true.
Proof. rewrite mem_cons. destruct (decide (k = k)); congruence. Qed.

Lemma mem_tail k k' v d : mem k d = true -> mem k ((k', v) :: d) = true.
Proof. intros H. rewrite mem_cons. destruct (decide (k' = k)); auto. Qed.

(** The loop never raises on a dictionary with distinct [str] keys.  A key
    it leaves is a key it found and did not shift, or the lowercase form of
    a key it shifted; it keeps every key that [islower] accepts.  Nothing is
    assumed of [str.lower] and [str.islower]. *)
Lemma case_shift_spec env items : forall d,
  str_keyed items = true -> distinct items = true -> distinct d = true ->
  (forall k, mem k items = true -> mem k d = true) ->
  exists d', case_shift env items d = inr d' /\ distinct d' = true /\
    (forall k, mem k d' = true ->
       (mem k d = true /\ (mem k items = true -> lowered env k = true)) \/
       (exists s, mem (KStr s) items = true /\ str_islower env s = false /\
          str_lower env s <> s /\ k = KStr (str_lower env s))) /\
    (forall k, lowered env k = true -> mem k d = true -> mem k d' = true) /\
    (forall s, mem (KStr s) items = true -> str_islower env s = false ->
       str_islower env (str_lower env s) = true ->
       mem (KStr (str_lower env s)) d' = true).
Proof.
  induction items as [|[key val] rest IH]; intros d Hstr Hdi Hdd Hsub.
  - exists d. simpl. split; [reflexivity|]. split; [exact Hdd|]. split; [|split].
    + intros k Hk. left. split; [exact Hk | discriminate].
    + auto.
    + discriminate.
  - destruct (str_keyed_cons _ _ _ Hstr) as [[s ->] Hstr'].
    simpl in Hdi. apply andb_true_iff in Hdi as [Hfresh Hdi'].
    apply negb_true_iff in Hfresh.
    assert (Hkey : mem (KStr s) d = true) by (apply Hsub, mem_head).
    simpl. destruct (str_islower env s) eqn:Elow; simpl.
    + (* the key is left alone *)
      destruct (IH d Hstr' Hdi' Hdd) as (d' & Hrun & Hd' & Hkeys & Hkeep & Hlow).
      { intros k Hk. apply Hsub, mem_tail, Hk. }
      exists d'. split; [exact Hrun|]. split; [exact Hd'|]. split; [|split].
      * intros k Hk. destruct (Hkeys k Hk) as [[Hin Hl]|(s' & Hs' & H1 & H2 & H3)].
        -- left. split; [exact Hin|]. rewrite mem_cons.
           destruct (decide (KStr s = k)) as [<-|N]; [intros _; exact Elow | exact Hl].
        -- right. exists s'. split; [apply mem_tail, Hs' | auto].
      * exact Hkeep.
      * intros s' Hs' Hrej Hl'. rewrite mem_cons in Hs'.
        destruct (decide (KStr s = KStr s')) as [[= <-]|N]; [congruence|].
        apply Hlow; assumption.
    + (* the key is shifted to its lowercase form *)
      set (d1 := setitem (KStr (str_lower env s)) val d).
      assert (Hkey1 : mem (KStr s) d1 = true) by (apply mem_setitem_mono_l, Hkey).
      rewrite (delitem_mem _ _ Hkey1). simpl.
      assert (Hd1 : distinct d1 = true) by (apply distinct_setitem; exact Hdd).
      set (d2 := remove (KStr s) d1).
      assert (Hd2 : distinct d2 = true) by (apply distinct_remove; exact Hd1).
      destruct (IH d2 Hstr' Hdi' Hd2) as (d' & Hrun & Hd' & Hkeys & Hkeep & Hlow).
      { intros k Hk.
        assert (Hne : KStr s <> k) by (intros <-; congruence).
        unfold d2. rewrite mem_remove_ne by exact Hne.
        apply mem_setitem_mono_l, Hsub, mem_tail, Hk. }
      assert (Hkeep2 : forall k, lowered env k = true -> mem k d1 = true ->
                mem k d2 = true).
      { intros k Hl Hin. unfold d2. rewrite mem_remove_ne; [exact Hin|].
        intros <-. simpl in Hl. congruence. }
      exists d'. split; [exact Hrun|]. split; [exact Hd'|]. split; [|split].
      * intros k Hk. destruct (Hkeys k Hk) as [[Hin Hl]|(s' & Hs' & H1 & H2 & H3)].
        -- destruct (decide (KStr s = k)) as [<-|Hne].
           { unfold d2 in Hin. rewrite (mem_remove_eq _ _ Hd1) in Hin. discriminate. }
           unfold d2 in Hin. rewrite mem_remove_ne in Hin by exact Hne.
           unfold d1 in Hin.
           destruct (decide (KStr (str_lower env s) = k)) as [<-|N].
           ++ right. exists s. split; [apply mem_head|]. split; [exact Elow|].
              split; [congruence | reflexivity].
           ++ rewrite mem_setitem_ne in Hin by exact N. left. split; [exact Hin|].
              rewrite mem_cons. destruct (decide (KStr s = k)); [contradiction | exact Hl].
        -- right. exists s'. split; [apply mem_tail, Hs' | auto].
      * intros k Hl Hin. apply Hkeep; [exact Hl|]. apply Hkeep2; [exact Hl|].
        apply mem_setitem_mono_l, Hin.
      * intros s' Hs' Hrej Hl'. rewrite mem_cons in Hs'.
        destruct (decide (KStr s = KStr s')) as [[= <-]|N].
        -- apply Hkeep; [exact Hl'|]. apply Hkeep2; [exact Hl'|].
           unfold d1. apply mem_setitem_eq.
        -- apply Hlow; assumption.
Qed.

End ShiftFacts.
(** ** Construction *)

Module InitFacts.
Import Dict DictFacts StrFacts ShiftFacts.

Lemma load_db_state files path :
  load_db files path =
  match storage_state files path with
  | Absent =>
      inl (Exn FileNotFoundError ("[Errno 2] No such file or directory: '" +:+ path +:+ "'"))
  | Unreadable =>
      inl (Exn PermissionError ("[Errno 13] Permission denied: '" +:+ path +:+ "'"))
  | Corrupt => inl (Exn UnpicklingError "pickle data was truncated")
  | WellFormed o => inr o
  end.
Proof.
  unfold load_db, storage_state, open_rb.
  destruct (files !! path) as [[r c]|]; simpl; [|reflexivity].
  destruct r; simpl; [|reflexivity].
  destruct c; reflexivity.
Qed.

(** On a dictionary with distinct [str] keys the normalization returns a
    dictionary; nothing is assumed of [str.lower] and [str.islower]. *)
Lemma normalize_str_dict env d :
  str_keyed d = true -> distinct d = true ->
  exists d', normalize env false (PyDict d) = inr (PyDict d') /\ distinct d' = true /\
    (forall k, mem k d' = true ->
       (mem k d = true /\ lowered env k = true) \/
       (exists s, mem (KStr s) d = true /\ str_islower env s = false /\
          str_lower env s <> s /\ k = KStr (str_lower env s))) /\
    (forall k, lowered env k = true -> mem k d = true -> mem k d' = true) /\
    (forall s, mem (KStr s) d = true -> str_islower env s = false ->
       str_islower env (str_lower env s) = true ->
       mem (KStr (str_lower env s)) d' = true).
Proof.
  intros Hs Hd.
  destruct (case_shift_spec env d d Hs Hd Hd (fun k H => H))
    as (d' & Hrun & Hd' & Hkeys & Hkeep & Hlow).
  exists d'. unfold normalize. simpl. rewrite Hrun. simpl.
  split; [reflexivity|]. split; [exact Hd'|]. split; [|split; assumption].
  intros k Hk. destruct (Hkeys k Hk) as [[Hin Hl]|H]; [left|right; exact H].
  split; [exact Hin | exact (Hl Hin)].
Qed.

(** When a string that [islower] accepts is its own lowercase form, and
    lowercasing twice is lowercasing once, every key the normalization
    leaves is its own lowercase form. *)
Lemma normalize_fixed env d d' :
  islower_is_fixed env -> lower_idempotent env ->
  str_keyed d = true -> distinct d = true ->
  normalize env false (PyDict d) = inr (PyDict d') ->
  forall k, mem k d' = true -> fixed_key env k = true.
Proof.
  intros P1 P2 Hs Hd Hrun k Hk.
  destruct (normalize_str_dict env d Hs Hd) as (d0 & Hrun0 & _ & Hkeys & _).
  rewrite Hrun in Hrun0. injection Hrun0 as <-.
  destruct (Hkeys k Hk) as [[_ Hl]|(s & _ & _ & _ & ->)].
  - destruct k as [| |s]; try discriminate. simpl in *.
    apply String.eqb_eq, P1, Hl.
  - simpl. apply String.eqb_eq, P2.
Qed.

Lemma fixed_not_variants env k1 k2 :
  fixed_key env k1 = true -> fixed_key env k2 = true -> ~ case_variants env k1 k2.
Proof.
  intros H1 H2 (s1 & s2 & -> & -> & Hne & Heq). simpl in H1, H2.
  apply String.eqb_eq in H1, H2. congruence.
Qed.

(** The ASCII rules have the three properties the theorems may assume. *)
Lemma ascii_islower_is_fixed env :
  str_lower env = Str.ascii_lower -> str_islower env = Str.ascii_islower ->
  islower_is_fixed env.
Proof. intros Hl Hi s. rewrite Hl, Hi. apply islower_lower_id. Qed.

Lemma ascii_lower_idempotent env :
  str_lower env = Str.ascii_lower -> lower_idempotent env.
Proof. intros Hl s. rewrite Hl. apply lower_lower. Qed.

Lemma ascii_ascii_rules env :
  str_lower env = Str.ascii_lower -> str_islower env = Str.ascii_islower ->
  ascii_rules env.
Proof. intros Hl Hi s _. rewrite Hl, Hi. split; reflexivity. Qed.

End InitFacts.

(** ** Theorems on construction *)

Section Construction.
Import Dict DictFacts StrFacts ShiftFacts InitFacts.

(** C1, as the specification states it, fails: a pickle that loads but does
    not hold a dictionary with [str] keys makes the normalization of a
    case-insensitive store raise, and [__init__] lets the [AttributeError]
    through, because the loop sits in the [else] branch of the [try]
    statement.  Here the file holds the pickle of [{1: 'x'}]. *)
Lemma C1_construction_raises :
  __init__ quiet_env (pickled_at "data/accounts.db" (PyDict [(KInt 1, PyStr "x")]))
    "Plugin" "accounts.db" "accounts" false
  = inl (Exn AttributeError "'int' object has no attribute 'islower'").
Proof. reflexivity. Qed.

(** C1, amended: construction returns a store, with the attributes it was
    given, for every file state on which the load fails (absent, unreadable
    or corrupt file: the store starts with an empty mapping), for every file
    that loads when the store is case-sensitive (the loaded object becomes
    the mapping as it is), and for every file that holds a dictionary with
    [str] keys when the store is case-insensitive. *)
Theorem C1_construction_succeeds env files plugin_name fname mode cs :
  loads_cleanly cs (storage_state files (dirize env fname)) = true ->
  exists a,
    __init__ env files plugin_name fname mode cs = inr a /\
    _plugin_name a = plugin_name /\ filename a = dirize env fname /\
    case_sensitive a = cs /\ addressing_mode a = mode /\
    match storage_state files (dirize env fname) with
    | WellFormed o =>
        if cs then db a = o
        else exists d', db a = PyDict d' /\ distinct d' = true
    | _ => db a = PyDict []
    end.
Proof.
  intros Hok. unfold __init__. rewrite load_db_state.
  destruct (storage_state files (dirize env fname)) as [| | |o];
    try (eexists; repeat split; reflexivity).
  simpl in Hok. destruct cs; simpl.
  - eexists. repeat split; reflexivity.
  - destruct o as [| | | |d]; try discriminate.
    simpl in Hok. apply andb_true_iff in Hok as [Hs Hd].
    destruct (normalize_str_dict env d Hs Hd) as (d' & Hrun & Hd' & _).
    rewrite Hrun. simpl. eexists. repeat split; try reflexivity.
    exists d'. split; [reflexivity | exact Hd'].
Qed.

Lemma C1_construction_succeeds_witness :
  loads_cleanly false (storage_state
     (pickled_at "data/accounts.db" (PyDict [(KStr "Bob", PyInt 1)]))
     (dirize quiet_env "accounts.db")) = true /\
  exists a,
    __init__ quiet_env (pickled_at "data/accounts.db" (PyDict [(KStr "Bob", PyInt 1)]))
      "Plugin" "accounts.db" "accounts" false = inr a /\
    _plugin_name a = "Plugin" /\ filename a = dirize quiet_env "accounts.db" /\
    case_sensitive a = false /\ addressing_mode a = "accounts" /\
    match storage_state (pickled_at "data/accounts.db" (PyDict [(KStr "Bob", PyInt 1)]))
            (dirize quiet_env "accounts.db") with
    | WellFormed o => exists d', db a = PyDict d' /\ distinct d' = true
    | _ => db a = PyDict []
    end.
Proof.
  split; [reflexivity|].
  apply (C1_construction_succeeds quiet_env
           (pickled_at "data/accounts.db" (PyDict [(KStr "Bob", PyInt 1)]))
           "Plugin" "accounts.db" "accounts" false).
  reflexivity.
Defined.

(** C3: a case-insensitive store built from a file that holds a dictionary
    with [str] keys has no two keys that differ only by case; when the file
    has both ["Bob"] and ["bob"], the mapping has the key ["bob"] and no
    other key that lowercases to it.  Of [str.lower] and [str.islower] the
    proof uses that a string [islower] accepts is its own lowercase form,
    that lowercasing twice is lowercasing once, and the ASCII rules on
    ["Bob"] and ["bob"]. *)
Theorem C3_load_merges_case_variants env files plugin_name fname mode d :
  islower_is_fixed env -> lower_idempotent env -> ascii_rules env ->
  storage_state files (dirize env fname) = WellFormed (PyDict d) ->
  str_keyed d = true -> distinct d = true ->
  exists a d',
    __init__ env files plugin_name fname mode false = inr a /\
    db a = PyDict d' /\ distinct d' = true /\
    (forall k1 k2, mem k1 d' = true -> mem k2 d' = true -> ~ case_variants env k1 k2) /\
    (mem (KStr "Bob") d = true -> mem (KStr "bob") d = true ->
       mem (KStr "bob") d' = true /\ mem (KStr "Bob") d' = false /\
       forall s, mem (KStr s) d' = true -> str_lower env s = "bob" -> s = "bob").
Proof.
  intros P1 P2 PA Hfile Hs Hd. unfold __init__. rewrite load_db_state, Hfile.
  destruct (normalize_str_dict env d Hs Hd) as (d' & Hrun & Hd' & _ & Hkeep & _).
  pose proof (normalize_fixed env d d' P1 P2 Hs Hd Hrun) as Hfix.
  rewrite Hrun. simpl. eexists. exists d'.
  split; [reflexivity|]. split; [reflexivity|]. split; [exact Hd'|]. split.
  - intros k1 k2 H1 H2. apply fixed_not_variants; auto.
  - intros _ Hbob. split; [|split].
    + apply Hkeep; [|exact Hbob]. simpl.
      destruct (PA "bob" eq_refl) as [_ ->]. reflexivity.
    + destruct (mem (KStr "Bob") d') eqn:E; [|reflexivity].
      apply Hfix in E. simpl in E. apply String.eqb_eq in E.
      destruct (PA "Bob" eq_refl) as [Hl _]. rewrite Hl in E. discriminate.
    + intros s Hin Hl. apply Hfix in Hin. simpl in Hin.
      apply String.eqb_eq in Hin. congruence.
Qed.

Lemma C3_load_merges_case_variants_witness :
  exists a d',
    __init__ quiet_env
      (pickled_at "data/accounts.db" (PyDict [(KStr "Bob", PyInt 1); (KStr "bob", PyInt 2)]))
      "Plugin" "accounts.db" "nicks" false = inr a /\
    db a = PyDict d' /\ distinct d' = true /\
    (forall k1 k2, mem k1 d' = true -> mem k2 d' = true ->
       ~ case_variants quiet_env k1 k2) /\
    (mem (KStr "bob") d' = true /\ mem (KStr "Bob") d' = false /\
     forall s, mem (KStr s) d' = true -> str_lower quiet_env s = "bob" -> s = "bob").
Proof.
  destruct (C3_load_merges_case_variants quiet_env
              (pickled_at "data/accounts.db"
                 (PyDict [(KStr "Bob", PyInt 1); (KStr "bob", PyInt 2)]))
              "Plugin" "accounts.db" "nicks"
              [(KStr "Bob", PyInt 1); (KStr "bob", PyInt 2)]
              (ascii_islower_is_fixed quiet_env eq_refl eq_refl)
              (ascii_lower_idempotent quiet_env eq_refl)
              (ascii_ascii_rules quiet_env eq_refl eq_refl)
              eq_refl eq_refl eq_refl)
    as (a & d' & H1 & H2 & H3 & H4 & H5).
  exists a, d'. repeat split; try assumption; apply H5; reflexivity.
Defined.

(** C4 fails on the code: a key with no cased character is not [islower],
    so the loop writes the entry under [key.lower()], which is the key
    itself, and then deletes that key.  A file that holds [{'123': 'x'}]
    loads to an empty mapping. *)
Lemma C4_uncased_key_is_dropped :
  __init__ quiet_env (pickled_at "data/accounts.db" (PyDict [(KStr "123", PyStr "x")]))
    "Plugin" "accounts.db" "nicks" false
  = inr {| db := PyDict [];
           _plugin_name := "Plugin";
           filename := "data/accounts.db";
           case_sensitive := false;
           addressing_mode := "nicks" |}.
Proof. reflexivity. Qed.

(** What the loop does keep: a key with a cased character is still mapped
    under its lowercase form. *)
Lemma load_keeps_cased_keys env files plugin_name fname mode d s :
  islower_is_fixed env ->
  storage_state files (dirize env fname) = WellFormed (PyDict d) ->
  str_keyed d = true -> distinct d = true ->
  mem (KStr s) d = true -> str_islower env (str_lower env s) = true ->
  exists a d',
    __init__ env files plugin_name fname mode false = inr a /\
    db a = PyDict d' /\ mem (KStr (str_lower env s)) d' = true.
Proof.
  intros P1 Hfile Hs Hd Hin Hl. unfold __init__. rewrite load_db_state, Hfile.
  destruct (normalize_str_dict env d Hs Hd) as (d' & Hrun & _ & _ & Hkeep & Hlow).
  rewrite Hrun. simpl. eexists. exists d'. repeat split.
  destruct (str_islower env s) eqn:E.
  - rewrite (P1 s E). apply Hkeep; [exact E | exact Hin].
  - apply Hlow; assumption.
Qed.

End Construction.

(** ** Key resolution, [get] and [set] *)

Module KeyFacts.
Import DictFacts StrFacts.

Lemma get_key_no_sep env p st :
  Str.contains "!" p = false -> _get_key env p st = (inl InvalidPrefix, st).
Proof.
  intros H. unfold _get_key, bind, lift, Str.split1.
  rewrite (cut_none _ _ H). reflexivity.
Qed.

(** [_get_key] on a prefix that splits into [nick] and [identhost]. *)
Lemma get_key_cut env p st nick identhost :
  Str.cut "!" p = Some (nick, identhost) ->
  _get_key env p st =
    let mode := addressing_mode (self st) in
    if String.eqb mode "accounts" then
      (match getUser env p with
       | inr name => inr name
       | inl e => if is_KeyError e then inr identhost else inl e
       end, looked_up p st)
    else if String.eqb mode "identhost" then (inr identhost, st)
    else if String.eqb mode "nicks" then (inr nick, st)
    else (inl (Exn ValueError ("Unknown addressing mode " +:+ str_repr env mode)), st).
Proof.
  intros H. unfold _get_key, bind, lift, gets, Str.split1. rewrite H. simpl.
  destruct (String.eqb (addressing_mode (self st)) "accounts").
  - unfold try_except, call_getUser.
    destruct (getUser env p) as [e|name]; [|reflexivity].
    destruct (is_KeyError e); reflexivity.
  - destruct (String.eqb (addressing_mode (self st)) "identhost"); [reflexivity|].
    destruct (String.eqb (addressing_mode (self st)) "nicks"); reflexivity.
Qed.

Lemma cut_prefix nick identhost :
  Str.contains "!" nick = false ->
  Str.cut "!" (nick +:+ "!" +:+ identhost) = Some (nick, identhost).
Proof. intros H. exact (cut_app "!" nick identhost H). Qed.

(** The state after [_get_key]: the same, or the same with one more lookup. *)
Lemma get_key_snd env p st :
  snd (_get_key env p st) = st \/ snd (_get_key env p st) = looked_up p st.
Proof.
  destruct (Str.cut "!" p) as [[nick ih]|] eqn:E.
  - rewrite (get_key_cut _ _ _ _ _ E). simpl.
    destruct (String.eqb _ "accounts"); [right; reflexivity|].
    destruct (String.eqb _ "identhost"); [left; reflexivity|].
    destruct (String.eqb _ "nicks"); left; reflexivity.
  - left. unfold _get_key, bind, lift, Str.split1. rewrite E. reflexivity.
Qed.

Lemma get_key_self env p st : self (snd (_get_key env p st)) = self st.
Proof. destruct (get_key_snd env p st) as [-> | ->]; reflexivity. Qed.

(** The key that [_get_key] returns depends on the addressing mode only. *)
Lemma get_key_fst env p st st' :
  addressing_mode (self st) = addressing_mode (self st') ->
  fst (_get_key env p st) = fst (_get_key env p st').
Proof.
  intros Hm. destruct (Str.cut "!" p) as [[nick ih]|] eqn:E.
  - rewrite !(get_key_cut _ _ _ _ _ E). simpl. rewrite <- Hm.
    destruct (String.eqb _ "accounts"); [reflexivity|].
    destruct (String.eqb _ "identhost"); [reflexivity|].
    destruct (String.eqb _ "nicks"); reflexivity.
  - unfold _get_key, bind, lift, Str.split1. rewrite E. reflexivity.
Qed.

Lemma key_of_attrs env a a' p :
  addressing_mode a = addressing_mode a' -> case_sensitive a = case_sensitive a' ->
  key_of env a p = key_of env a' p.
Proof.
  intros Hm Hc. unfold key_of, canonical_key, bind, gets, ret.
  pose proof (get_key_fst env p (state_of a) (state_of a') Hm) as Hf.
  pose proof (get_key_self env p (state_of a)) as Hs.
  pose proof (get_key_self env p (state_of a')) as Hs'.
  destruct (_get_key env p (state_of a)) as [[e|u] st1];
    destruct (_get_key env p (state_of a')) as [[e'|u'] st2];
    simpl in *; try congruence.
  injection Hf as ->. rewrite Hs, Hs', Hc. reflexivity.
Qed.

(** [set] resolves the canonical key and then stores under it. *)
Lemma set_run env p v st :
  set env p v st =
    match key_of env (self st) p with
    | inr k => db_setitem k v (snd (_get_key env p st))
    | inl e => (inl e, snd (_get_key env p st))
    end.
Proof.
  unfold set, key_of, canonical_key, bind, gets, ret.
  pose proof (get_key_fst env p st (state_of (self st)) eq_refl) as Hf.
  pose proof (get_key_self env p st) as Hs.
  pose proof (get_key_self env p (state_of (self st))) as Hs'.
  destruct (_get_key env p st) as [[e|u] st1];
    destruct (_get_key env p (state_of (self st))) as [[e'|u'] st2];
    simpl in *; try congruence.
  injection Hf as ->. rewrite Hs, Hs'. reflexivity.
Qed.

(** [get] resolves the canonical key and then reads under it. *)
Lemma get_run env p st :
  get env p st =
    match key_of env (self st) p with
    | inr k => db_get k (snd (_get_key env p st))
    | inl e => (inl e, snd (_get_key env p st))
    end.
Proof.
  unfold get, key_of, canonical_key, bind, gets, ret.
  pose proof (get_key_fst env p st (state_of (self st)) eq_refl) as Hf.
  pose proof (get_key_self env p st) as Hs.
  pose proof (get_key_self env p (state_of (self st))) as Hs'.
  destruct (_get_key env p st) as [[e|u] st1];
    destruct (_get_key env p (state_of (self st))) as [[e'|u'] st2];
    simpl in *; try congruence.
  injection Hf as ->. rewrite Hs, Hs'. reflexivity.
Qed.

Lemma db_get_self k st : self (snd (db_get k st)) = self st.
Proof. unfold db_get. destruct (db (self st)); reflexivity. Qed.

Lemma get_self env p st : self (snd (get env p st)) = self st.
Proof.
  rewrite get_run. destruct (key_of env (self st) p); simpl.
  - apply get_key_self.
  - rewrite db_get_self. apply get_key_self.
Qed.

End KeyFacts.

(** ** Theorems on key resolution *)

Section Resolution.
Import StrFacts KeyFacts.

(** C5: on a prefix without ['!'], [get] and [set] raise the unpacking
    error, whatever the addressing mode, and the state (so the mapping) is
    the one before the call. *)
Theorem C5_malformed_prefix env st p v :
  Str.contains "!" p = false ->
  get env p st = (inl InvalidPrefix, st) /\
  set env p v st = (inl InvalidPrefix, st) /\
  _get_key env p st = (inl InvalidPrefix, st).
Proof.
  intros H. unfold get, set, bind.
  rewrite (get_key_no_sep env p st H). repeat split.
Qed.

Lemma C5_malformed_prefix_witness :
  Str.contains "!" "nick" = false /\
  get quiet_env "nick" (state_of (empty_store "nicks" false))
    = (inl InvalidPrefix, state_of (empty_store "nicks" false)) /\
  set quiet_env "nick" (PyStr "id") (state_of (empty_store "nicks" false))
    = (inl InvalidPrefix, state_of (empty_store "nicks" false)) /\
  _get_key quiet_env "nick" (state_of (empty_store "nicks" false))
    = (inl InvalidPrefix, state_of (empty_store "nicks" false)).
Proof.
  split; [reflexivity|].
  apply (C5_malformed_prefix quiet_env (state_of (empty_store "nicks" false))
           "nick" (PyStr "id")).
  reflexivity.
Defined.

(** C6: with the mode [accounts], on a prefix [nick!identhost], the key is
    the account name when the lookup returns one, the part after the first
    ['!'] when the lookup raises [KeyError], and any other exception of the
    lookup is raised as it is.  The lookup is made once. *)
Theorem C6_accounts_resolution env st nick identhost :
  Str.contains "!" nick = false ->
  addressing_mode (self st) = "accounts" ->
  let p := nick +:+ "!" +:+ identhost in
  (forall name, getUser env p = inr name -> fst (_get_key env p st) = inr name) /\
  (forall e, getUser env p = inl e -> is_KeyError e = true ->
     fst (_get_key env p st) = inr identhost) /\
  (forall e, getUser env p = inl e -> is_KeyError e = false ->
     fst (_get_key env p st) = inl e) /\
  snd (_get_key env p st) = looked_up p st.
Proof.
  intros Hn Hm p. unfold p.
  rewrite (get_key_cut _ _ _ _ _ (cut_prefix nick identhost Hn)).
  simpl. rewrite Hm. simpl. repeat split.
  - intros name ->. reflexivity.
  - intros e -> ->. reflexivity.
  - intros e -> ->. reflexivity.
Qed.

Lemma C6_accounts_resolution_witness :
  fst (_get_key directory_env "alice!alice@example.org"
         (state_of (empty_store "accounts" false))) = inr "Alice" /\
  fst (_get_key directory_env "bob!bob@example.org"
         (state_of (empty_store "accounts" false))) = inr "bob@example.org" /\
  fst (_get_key directory_env "eve!eve@example.org"
         (state_of (empty_store "accounts" false)))
    = inl (Exn RuntimeError "user database is locked").
Proof.
  split; [|split].
  - apply (C6_accounts_resolution directory_env
             (state_of (empty_store "accounts" false)) "alice" "alice@example.org");
      reflexivity.
  - apply (C6_accounts_resolution directory_env
             (state_of (empty_store "accounts" false)) "bob" "bob@example.org"
             eq_refl eq_refl) with (e := Exn KeyError "bob!bob@example.org");
      reflexivity.
  - apply (C6_accounts_resolution directory_env
             (state_of (empty_store "accounts" false)) "eve" "eve@example.org"
             eq_refl eq_refl);
      reflexivity.
Defined.

(** C9: on a prefix [nick!identhost], the mode [identhost] returns the part
    after the first ['!'] and the mode [nicks] the part before it; in both
    the state is returned as it was, so no lookup was made, whatever the
    directory would have answered. *)
Theorem C9_identhost_and_nicks env st nick identhost :
  Str.contains "!" nick = false ->
  let p := nick +:+ "!" +:+ identhost in
  (addressing_mode (self st) = "identhost" ->
     _get_key env p st = (inr identhost, st) /\
     getUser_calls (snd (_get_key env p st)) = getUser_calls st) /\
  (addressing_mode (self st) = "nicks" -> _get_key env p st = (inr nick, st)).
Proof.
  intros Hn p. unfold p.
  rewrite (get_key_cut _ _ _ _ _ (cut_prefix nick identhost Hn)).
  simpl. split; intros ->; simpl; auto.
Qed.

Lemma C9_identhost_and_nicks_witness :
  _get_key directory_env "eve!eve@example.org" (state_of (empty_store "identhost" false))
    = (inr "eve@example.org", state_of (empty_store "identhost" false)) /\
  _get_key directory_env "eve!eve@example.org" (state_of (empty_store "nicks" false))
    = (inr "eve", state_of (empty_store "nicks" false)).
Proof.
  split.
  - apply (C9_identhost_and_nicks directory_env
             (state_of (empty_store "identhost" false)) "eve" "eve@example.org");
      reflexivity.
  - apply (C9_identhost_and_nicks directory_env
             (state_of (empty_store "nicks" false)) "eve" "eve@example.org");
      reflexivity.
Defined.

End Resolution.

(** ** Theorems on [get] and [set] *)

Module StoreFacts.
Import DictFacts StrFacts KeyFacts.

(** [set] on a resolved key, when [self.db] is a dictionary. *)
Lemma set_on_dict env p v st d k :
  db (self st) = PyDict d -> key_of env (self st) p = inr k ->
  fst (set env p v st) = inr tt /\
  db (self (snd (set env p v st))) = PyDict (Dict.setitem (KStr k) v d) /\
  addressing_mode (self (snd (set env p v st))) = addressing_mode (self st) /\
  case_sensitive (self (snd (set env p v st))) = case_sensitive (self st).
Proof.
  intros Hd Hk. rewrite set_run, Hk. unfold db_setitem.
  rewrite (get_key_self env p st), Hd. simpl. repeat split.
Qed.

Lemma set_failed_self env p v st e :
  key_of env (self st) p = inl e -> self (snd (set env p v st)) = self st.
Proof. intros Hk. rewrite set_run, Hk. simpl. apply get_key_self. Qed.

Lemma get_on_dict env p st d k :
  db (self st) = PyDict d -> key_of env (self st) p = inr k ->
  fst (get env p st) = inr (Dict.get (KStr k) d).
Proof.
  intros Hd Hk. rewrite get_run, Hk. unfold db_get.
  rewrite (get_key_self env p st), Hd. reflexivity.
Qed.

(** A prefix with a ['!'] resolves, under one of the three modes, unless the
    lookup fails with something else than [KeyError]. *)
Lemma valid_prefix_resolves env a p :
  Str.contains "!" p = true ->
  In (addressing_mode a) MODES ->
  (forall e, getUser env p = inl e -> is_KeyError e = true) ->
  exists k, key_of env a p = inr k.
Proof.
  intros Hp Hm Hu. destruct (cut_some _ _ Hp) as (nick & ih & Hcut).
  unfold key_of, canonical_key, bind, gets, ret.
  rewrite (get_key_cut _ _ _ _ _ Hcut). simpl.
  destruct Hm as [<-|[<-|[<-|[]]]]; simpl; eauto.
  destruct (getUser env p) as [e|name] eqn:E; simpl; eauto.
  rewrite (Hu e eq_refl). simpl. eauto.
Qed.

Lemma lookup_written_eq files path c :
  exists r, written files path c !! path = Some (File r c).
Proof. unfold written. eexists. apply lookup_insert_eq. Qed.

Lemma lookup_written_ne files path q c :
  path <> q -> written files path c !! q = files !! q.
Proof. intros H. unfold written. apply lookup_insert_ne. exact H. Qed.

Lemma flush_returns env st : fst (flush env st) = inr tt.
Proof.
  unfold flush, bind, gets, try_except, open_wb, pickle_dump, shutil_move, ret.
  destruct (open_fault env); [reflexivity|].
  destruct (dump_fault env) as [[e partial]|]; [reflexivity|].
  destruct (move_fault env) as [[e [partial|]]|]; simpl; try reflexivity.
  destruct (lookup_written_eq
              (written (fs st) (filename (self st) +:+ ".tmp") (Garbage ""))
              (filename (self st) +:+ ".tmp") (Pickle (db (self st)))) as [r ->].
  reflexivity.
Qed.

Lemma flush_self env st : self (snd (flush env st)) = self st.
Proof.
  unfold flush, bind, gets, try_except, open_wb, pickle_dump, shutil_move, ret.
  destruct (open_fault env); [reflexivity|].
  destruct (dump_fault env) as [[e partial]|]; [reflexivity|].
  destruct (move_fault env) as [[e [partial|]]|]; simpl; try reflexivity.
  destruct (lookup_written_eq
              (written (fs st) (filename (self st) +:+ ".tmp") (Garbage ""))
              (filename (self st) +:+ ".tmp") (Pickle (db (self st)))) as [r ->].
  reflexivity.
Qed.

Lemma holds_run_call env a k v c st :
  holds a k v st ->
  no_set_on env k [c] st = true ->
  holds a k v (run_call env c st).
Proof.
  intros (Hm & Hc & d & Hd & Hl) Hno. simpl in Hno. rewrite andb_true_r in Hno.
  destruct c as [p' v'|p'|]; unfold holds; simpl.
  - destruct (key_of env (self st) p') as [e|k'] eqn:Ek.
    + rewrite (set_failed_self _ _ _ _ _ Ek). repeat split; eauto.
    + destruct (set_on_dict env p' v' st d k' Hd Ek) as (_ & Hdb & Hm' & Hc').
      apply negb_true_iff, String.eqb_neq in Hno.
      split; [congruence|]. split; [congruence|].
      eexists. split; [exact Hdb|].
      rewrite lookup_setitem_ne; [exact Hl|]. congruence.
  - rewrite get_self. repeat split; eauto.
  - rewrite flush_self. repeat split; eauto.
Qed.

Lemma holds_run_calls env a k v cs : forall st,
  holds a k v st ->
  no_set_on env k cs st = true ->
  holds a k v (run_calls env cs st).
Proof.
  induction cs as [|c r IH]; intros st Hh Hno; simpl; [exact Hh|].
  simpl in Hno. apply andb_true_iff in Hno as [Hc Hr].
  apply IH; [|exact Hr].
  apply holds_run_call; [exact Hh|]. simpl. rewrite Hc. reflexivity.
Qed.

End StoreFacts.

Section Store.
Import DictFacts StrFacts InitFacts KeyFacts StoreFacts.

(** C2: in a store that holds a mapping, under one of the three modes, for a
    prefix [p] with a ['!'] on which the lookup either answers or raises
    [KeyError], [set(p, v)] returns, and a later [get(p)] returns [v],
    whatever calls were made in between, as long as none of them is a [set]
    that resolves to the canonical key of [p]. *)
Theorem C2_set_get_roundtrip env st d p v :
  db (self st) = PyDict d ->
  Str.contains "!" p = true ->
  In (addressing_mode (self st)) MODES ->
  (forall e, getUser env p = inl e -> is_KeyError e = true) ->
  exists k,
    key_of env (self st) p = inr k /\
    fst (set env p v st) = inr tt /\
    fst (get env p (snd (set env p v st))) = inr v /\
    forall calls,
      no_set_on env k calls (snd (set env p v st)) = true ->
      fst (get env p (run_calls env calls (snd (set env p v st)))) = inr v.
Proof.
  intros Hd Hp Hm Hu.
  destruct (valid_prefix_resolves env (self st) p Hp Hm Hu) as [k Hk].
  destruct (set_on_dict env p v st d k Hd Hk) as (Hset & Hdb & Hm' & Hc').
  assert (Hh : holds (self st) k v (snd (set env p v st))).
  { split; [exact Hm'|]. split; [exact Hc'|].
    eexists. split; [exact Hdb|]. apply lookup_setitem_eq. }
  assert (Hget : forall st', holds (self st) k v st' -> fst (get env p st') = inr v).
  { intros st' (Hm1 & Hc1 & d1 & Hd1 & Hl1).
    rewrite (get_on_dict env p st' d1 k Hd1).
    - unfold Dict.get. rewrite Hl1. reflexivity.
    - rewrite (key_of_attrs env (self st') (self st) p Hm1 Hc1). exact Hk. }
  exists k. split; [exact Hk|]. split; [exact Hset|]. split.
  - apply Hget, Hh.
  - intros calls Hno. apply Hget. apply holds_run_calls; assumption.
Qed.

Lemma C2_set_get_roundtrip_witness :
  exists k,
    key_of directory_env (empty_store "accounts" false) "Bob!bob@Example.org" = inr k /\
    fst (set directory_env "Bob!bob@Example.org" (PyStr "bob42")
           (state_of (empty_store "accounts" false))) = inr tt /\
    fst (get directory_env "Bob!bob@Example.org"
           (snd (set directory_env "Bob!bob@Example.org" (PyStr "bob42")
                   (state_of (empty_store "accounts" false))))) = inr (PyStr "bob42") /\
    fst (get directory_env "Bob!bob@Example.org"
           (run_calls directory_env
              [Call_set "alice!alice@example.org" (PyStr "al"); Call_get "nick";
               Call_flush; Call_set "carol!c@example.org" (PyInt 7)]
              (snd (set directory_env "Bob!bob@Example.org" (PyStr "bob42")
                      (state_of (empty_store "accounts" false))))))
      = inr (PyStr "bob42").
Proof.
  destruct (C2_set_get_roundtrip directory_env (state_of (empty_store "accounts" false))
              [] "Bob!bob@Example.org" (PyStr "bob42") eq_refl eq_refl)
    as (k & Hk & Hset & Hget & Hcalls).
  - simpl. left. reflexivity.
  - intros e [= <-]. reflexivity.
  - exists k. split; [exact Hk|]. split; [exact Hset|]. split; [exact Hget|].
    apply Hcalls. injection Hk as <-. reflexivity.
Defined.

(** C8: in a case-insensitive store under the mode [nicks] that holds a
    mapping, ["Nick!user@host"] and ["nick!user@host"] always read the same
    entry, and after a [set] through either prefix both read the value just
    set.  Of [str.lower] the proof uses the ASCII rules on ["Nick"] and
    ["nick"]. *)
Theorem C8_case_insensitive_lookup env st d v p :
  ascii_rules env ->
  db (self st) = PyDict d ->
  case_sensitive (self st) = false ->
  addressing_mode (self st) = "nicks" ->
  p = "Nick!user@host" \/ p = "nick!user@host" ->
  get env "Nick!user@host" st = get env "nick!user@host" st /\
  fst (set env p v st) = inr tt /\
  fst (get env "Nick!user@host" (snd (set env p v st))) = inr v /\
  fst (get env "nick!user@host" (snd (set env p v st))) = inr v.
Proof.
  intros PA Hd Hc Hm Hp.
  destruct (PA "Nick" eq_refl) as [HN _]. destruct (PA "nick" eq_refl) as [Hn _].
  assert (Hkey : forall a q, case_sensitive a = false -> addressing_mode a = "nicks" ->
            q = "Nick!user@host" \/ q = "nick!user@host" -> key_of env a q = inr "nick").
  { intros a q Hca Hma [-> | ->];
      unfold key_of, canonical_key, bind, gets, ret.
    - rewrite (get_key_cut _ _ _ _ _ (cut_prefix "Nick" "user@host" eq_refl)).
      simpl. rewrite Hma. simpl. rewrite Hca. simpl. rewrite HN. reflexivity.
    - rewrite (get_key_cut _ _ _ _ _ (cut_prefix "nick" "user@host" eq_refl)).
      simpl. rewrite Hma. simpl. rewrite Hca. simpl. rewrite Hn. reflexivity. }
  assert (Hst : forall q, q = "Nick!user@host" \/ q = "nick!user@host" ->
            snd (_get_key env q st) = st).
  { intros q [-> | ->].
    - rewrite (get_key_cut _ _ _ _ _ (cut_prefix "Nick" "user@host" eq_refl)).
      simpl. rewrite Hm. reflexivity.
    - rewrite (get_key_cut _ _ _ _ _ (cut_prefix "nick" "user@host" eq_refl)).
      simpl. rewrite Hm. reflexivity. }
  split.
  - rewrite !get_run, !Hkey, !Hst by auto. reflexivity.
  - destruct (set_on_dict env p v st d "nick" Hd (Hkey _ _ Hc Hm Hp))
      as (Hset & Hdb & Hm' & Hc').
    split; [exact Hset|].
    rewrite Hm in Hm'. rewrite Hc in Hc'.
    split.
    + rewrite (get_on_dict env _ _ _ "nick" Hdb) by (apply Hkey; auto).
      rewrite get_setitem_eq. reflexivity.
    + rewrite (get_on_dict env _ _ _ "nick" Hdb) by (apply Hkey; auto).
      rewrite get_setitem_eq. reflexivity.
Qed.

Lemma C8_case_insensitive_lookup_witness :
  get quiet_env "Nick!user@host" (state_of (empty_store "nicks" false))
    = get quiet_env "nick!user@host" (state_of (empty_store "nicks" false)) /\
  fst (set quiet_env "Nick!user@host" (PyStr "id")
         (state_of (empty_store "nicks" false))) = inr tt /\
  fst (get quiet_env "Nick!user@host"
         (snd (set quiet_env "Nick!user@host" (PyStr "id")
                 (state_of (empty_store "nicks" false))))) = inr (PyStr "id") /\
  fst (get quiet_env "nick!user@host"
         (snd (set quiet_env "Nick!user@host" (PyStr "id")
                 (state_of (empty_store "nicks" false))))) = inr (PyStr "id").
Proof.
  apply (C8_case_insensitive_lookup quiet_env (state_of (empty_store "nicks" false))
           [] (PyStr "id") "Nick!user@host"
           (ascii_ascii_rules quiet_env eq_refl eq_refl) eq_refl eq_refl eq_refl).
  left. reflexivity.
Defined.

(** C10: in a store that holds a mapping, [get] on a prefix whose canonical
    key is not a key of the mapping returns [None], and the object is the
    one before the call. *)
Theorem C10_get_missing_key env st d p k :
  db (self st) = PyDict d ->
  key_of env (self st) p = inr k ->
  Dict.mem (KStr k) d = false ->
  fst (get env p st) = inr PyNone /\
  self (snd (get env p st)) = self st.
Proof.
  intros Hd Hk Hin. split; [|apply get_self].
  rewrite (get_on_dict env p st d k Hd Hk), (get_absent _ _ Hin). reflexivity.
Qed.

Lemma C10_get_missing_key_witness :
  fst (get directory_env "bob!bob@example.org"
         (state_of (with_db (PyDict [(KStr "alice", PyStr "al")]) (empty_store "accounts" false))))
    = inr PyNone /\
  self (snd (get directory_env "bob!bob@example.org"
         (state_of (with_db (PyDict [(KStr "alice", PyStr "al")]) (empty_store "accounts" false)))))
    = with_db (PyDict [(KStr "alice", PyStr "al")]) (empty_store "accounts" false).
Proof.
  apply (C10_get_missing_key directory_env
           (state_of (with_db (PyDict [(KStr "alice", PyStr "al")]) (empty_store "accounts" false)))
           [(KStr "alice", PyStr "al")] "bob!bob@example.org" "bob@example.org");
    reflexivity.
Defined.

End Store.

(** ** Theorems on [flush] *)

Section Flush.
Import StrFacts StoreFacts.

(** C7: [flush] returns normally whatever the outcome of opening the
    temporary file, of writing the pickle and of the move, and it leaves the
    object as it was.  The pickle is written to [filename + '.tmp'], a path
    that is never [filename]: when the open or the dump fails, and when the
    move fails before it copies anything, the entry of the file system at
    [filename] is the one before the call; when nothing fails, [filename]
    holds the pickle of the mapping and the temporary file is gone.  No
    other path changes. *)
Theorem C7_flush_never_raises env st :
  let name := filename (self st) in
  let st' := snd (flush env st) in
  fst (flush env st) = inr tt /\
  self st' = self st /\
  (open_fault env <> None \/ dump_fault env <> None ->
     fs st' !! name = fs st !! name) /\
  (forall e, move_fault env = Some (e, None) -> fs st' !! name = fs st !! name) /\
  (open_fault env = None -> dump_fault env = None -> move_fault env = None ->
     content <$> (fs st' !! name) = Some (Pickle (db (self st))) /\
     fs st' !! (name +:+ ".tmp") = None) /\
  (forall q, q <> name -> q <> name +:+ ".tmp" -> fs st' !! q = fs st !! q).
Proof.
  intros name st'.
  split; [apply flush_returns|]. split; [apply flush_self|].
  assert (Htmp : name +:+ ".tmp" <> name) by apply append_tmp_ne.
  subst st'. unfold flush, bind, gets, try_except, open_wb, pickle_dump,
    shutil_move, ret. fold name.
  destruct (open_fault env) as [eo|].
  { simpl. repeat split; auto; congruence. }
  destruct (dump_fault env) as [[ed partial]|].
  { simpl. repeat split; try congruence.
    - intros _. rewrite lookup_written_ne by exact Htmp.
      apply lookup_written_ne. exact Htmp.
    - intros e _. rewrite lookup_written_ne by exact Htmp.
      apply lookup_written_ne. exact Htmp.
    - intros q _ Hq. rewrite lookup_written_ne by congruence.
      apply lookup_written_ne. congruence. }
  destruct (move_fault env) as [[em [partial|]]|]; simpl.
  - repeat split; try congruence.
    + intros [H|H]; congruence.
    + intros q Hq Hq'. rewrite !lookup_written_ne by congruence. reflexivity.
  - repeat split; try congruence.
    + intros [H|H]; congruence.
    + intros e _. rewrite !lookup_written_ne by exact Htmp. reflexivity.
    + intros q Hq Hq'. rewrite !lookup_written_ne by congruence. reflexivity.
  - destruct (lookup_written_eq (written (fs st) (name +:+ ".tmp") (Garbage ""))
                (name +:+ ".tmp") (Pickle (db (self st)))) as [r Hr].
    rewrite Hr. simpl. repeat split; try congruence.
    + intros [H|H]; congruence.
    + rewrite lookup_insert_eq. reflexivity.
    + rewrite lookup_insert_ne by (apply not_eq_sym; exact Htmp).
      apply lookup_delete_eq.
    + intros q Hq Hq'. rewrite lookup_insert_ne by congruence.
      rewrite lookup_delete_ne by congruence.
      rewrite !lookup_written_ne by congruence. reflexivity.
Qed.

Lemma C7_flush_never_raises_witness :
  (fst (flush disk_full_env unsaved_state) = inr tt /\
   fs (snd (flush disk_full_env unsaved_state)) !! "data/accounts.db"
     = Some (File true (Pickle (PyDict [])))) /\
  (fst (flush quiet_env unsaved_state) = inr tt /\
   content <$> (fs (snd (flush quiet_env unsaved_state)) !! "data/accounts.db")
     = Some (Pickle (PyDict [(KStr "bob", PyStr "bob42")])) /\
   fs (snd (flush quiet_env unsaved_state)) !! "data/accounts.db.tmp" = None).
Proof.
  split.
  - destruct (C7_flush_never_raises disk_full_env unsaved_state)
      as (Hret & _ & Hfail & _).
    split; [exact Hret|].
    change (Some (File true (Pickle (PyDict []))))
      with (fs unsaved_state !! filename (self unsaved_state)).
    apply Hfail. right. discriminate.
  - destruct (C7_flush_never_raises quiet_env unsaved_state)
      as (Hret & _ & _ & _ & Hok & _).
    split; [exact Hret|]. apply Hok; reflexivity.
Defined.

End Flush.

(** ** Further properties of the dictionary operations *)

Module DictMore.
Import Dict DictFacts.

Lemma mem_lookup_none k d : mem k d = false <-> lookup k d = None.
Proof. unfold mem. destruct (lookup k d); split; congruence. Qed.

Lemma In_mem k v d : In (k, v) d -> mem k d = true.
Proof.
  induction d as [|[k' v'] r IH]; simpl; [tauto|].
  rewrite mem_cons. intros [[= -> ->]|H].
  - destruct (decide (k = k)); congruence.
  - destruct (decide (k' = k)); auto.
Qed.

Lemma mem_In k d : mem k d = true -> exists v, In (k, v) d.
Proof.
  induction d as [|[k' v'] r IH]; [discriminate|].
  rewrite mem_cons. destruct (decide (k' = k)) as [->|N].
  - intros _. exists v'. left. reflexivity.
  - intros H. destruct (IH H) as [v Hv]. exists v. right. exact Hv.
Qed.

Lemma setitem_setitem k v1 v2 d : setitem k v2 (setitem k v1 d) = setitem k v2 d.
Proof.
  induction d as [|[k' v'] r IH]; simpl.
  - destruct (decide (k = k)); congruence.
  - destruct (decide (k' = k)) as [E|N]; simpl.
    + destruct (decide (k' = k)); congruence.
    + destruct (decide (k' = k)); [contradiction|]. rewrite IH. reflexivity.
Qed.

Lemma length_setitem k v d :
  length (setitem k v d) = if mem k d then length d else S (length d).
Proof.
  induction d as [|[k' v'] r IH]; simpl; [reflexivity|].
  rewrite mem_cons. destruct (decide (k' = k)); simpl; [reflexivity|].
  rewrite IH. destruct (mem k r); reflexivity.
Qed.

Lemma folded_mem env d k :
  folded env d = true -> mem k d = true -> fixed_key env k = true.
Proof.
  unfold folded. rewrite forallb_forall. intros Hf Hm.
  destruct (mem_In _ _ Hm) as [v Hv]. exact (Hf _ Hv).
Qed.

Lemma folded_setitem env k v d :
  folded env d = true -> fixed_key env k = true -> folded env (setitem k v d) = true.
Proof.
  unfold folded. intros Hd Hk.
  induction d as [|[k' v'] r IH]; simpl in *.
  - rewrite Hk. reflexivity.
  - apply andb_true_iff in Hd as [H1 H2].
    destruct (decide (k' = k)); simpl.
    + rewrite H1, H2. reflexivity.
    + rewrite H1, (IH H2). reflexivity.
Qed.

Lemma folded_str_keyed env d : folded env d = true -> str_keyed d = true.
Proof.
  unfold folded, str_keyed. induction d as [|[k v] r IH]; simpl; [reflexivity|].
  intros [Hk Hr]%andb_true_iff. rewrite (IH Hr).
  destruct k; simpl in *; congruence.
Qed.

Lemma folded_of_mem env d :
  (forall k, mem k d = true -> fixed_key env k = true) -> folded env d = true.
Proof.
  intros H. unfold folded. apply forallb_forall. intros [k v] Hin. simpl.
  apply H. exact (In_mem k v d Hin).
Qed.

End DictMore.

(** ** The values the normalization loop leaves *)

Module ShiftMore.
Import Dict DictFacts ShiftFacts DictMore.

(** Under a key that [islower] accepts, the loop leaves the value of the
    last key it shifted there, and the value the dictionary had when no key
    was shifted there. *)
Lemma case_shift_lookup env t : forall items d d',
  str_islower env t = true ->
  case_shift env items d = inr d' ->
  lookup (KStr t) d' =
    match shifted env items t with
    | Some v => Some v
    | None => lookup (KStr t) d
    end.
Proof.
  intros items. induction items as [|[key val] rest IH]; intros d d' Ht Hrun.
  - simpl in *. congruence.
  - simpl in Hrun. destruct key as [|z|s]; simpl in Hrun; try discriminate.
    simpl. destruct (str_islower env s) eqn:Es; simpl in *.
    + rewrite (IH d d' Ht Hrun). destruct (shifted env rest t); reflexivity.
    + destruct (delitem (KStr s) (setitem (KStr (str_lower env s)) val d))
        as [e|d2] eqn:Edel; simpl in Hrun; [discriminate|].
      unfold delitem in Edel.
      destruct (lookup (KStr s) (setitem (KStr (str_lower env s)) val d));
        [|discriminate].
      injection Edel as <-.
      rewrite (IH _ d' Ht Hrun). destruct (shifted env rest t); [reflexivity|].
      assert (Hne : KStr s <> KStr t) by (intros [= ->]; congruence).
      rewrite lookup_remove_ne by exact Hne.
      destruct (String.eqb (str_lower env s) t) eqn:El.
      * apply String.eqb_eq in El. rewrite El. apply lookup_setitem_eq.
      * apply String.eqb_neq in El. apply lookup_setitem_ne. congruence.
Qed.

(** In a dictionary whose keys are their own lowercase form, no key is
    shifted to a key that [islower] accepts. *)
Lemma shifted_folded env d t :
  folded env d = true -> str_islower env t = true -> shifted env d t = None.
Proof.
  unfold folded. intros Hd Ht.
  induction d as [|[k v] r IH]; simpl in *; [reflexivity|].
  apply andb_true_iff in Hd as [Hk Hr]. rewrite (IH Hr).
  destruct k as [| |s]; try reflexivity. simpl in Hk.
  apply String.eqb_eq in Hk.
  destruct (str_islower env s) eqn:Es; simpl; [reflexivity|].
  destruct (String.eqb (str_lower env s) t) eqn:El; [|reflexivity].
  apply String.eqb_eq in El. congruence.
Qed.

End ShiftMore.

(** ** Further properties of construction *)

Module InitMore.
Import Dict DictFacts ShiftFacts InitFacts DictMore ShiftMore.

(** The mapping a case-insensitive load leaves: under a key that [islower]
    accepts, the value of the last key shifted there, or the value of the
    file; no key that [islower] rejects, unless another key that it rejects
    lowercases to it; no key that is not a [str]. *)
Lemma normalize_lookup env d :
  str_keyed d = true -> distinct d = true ->
  exists d', normalize env false (PyDict d) = inr (PyDict d') /\ distinct d' = true /\
    (forall t, str_islower env t = true ->
       lookup (KStr t) d' =
         match shifted env d t with
         | Some v => Some v
         | None => lookup (KStr t) d
         end) /\
    (forall t, str_islower env t = false ->
       (forall s, mem (KStr s) d = true -> str_islower env s = false ->
          str_lower env s = t -> s = t) ->
       lookup (KStr t) d' = None) /\
    (forall k, is_str k = false -> lookup k d' = None).
Proof.
  intros Hs Hd.
  destruct (normalize_str_dict env d Hs Hd) as (d' & Hrun & Hd' & Hkeys & _).
  exists d'. split; [exact Hrun|]. split; [exact Hd'|].
  assert (Hshift : case_shift env d d = inr d').
  { unfold normalize in Hrun. simpl in Hrun.
    destruct (case_shift env d d) as [e|d0]; simpl in Hrun; congruence. }
  split; [|split].
  - intros t Ht. apply (case_shift_lookup env t d d d' Ht Hshift).
  - intros t Ht Hno. apply mem_lookup_none.
    destruct (mem (KStr t) d') eqn:E; [|reflexivity].
    destruct (Hkeys _ E) as [[_ Hl]|(s & Hin & Hrej & Hne & Heq)].
    + simpl in Hl. congruence.
    + injection Heq as Heq. symmetry in Heq.
      pose proof (Hno s Hin Hrej Heq) as Est. subst s. contradiction.
  - intros k Hk. apply mem_lookup_none.
    destruct (mem k d') eqn:E; [|reflexivity].
    destruct (Hkeys _ E) as [[_ Hl]|(s & _ & _ & _ & ->)]; [|discriminate].
    destruct k; simpl in *; congruence.
Qed.

(** The mapping a case-insensitive load leaves of a dictionary whose keys
    are their own lowercase form: the entries whose key [islower] accepts. *)
Lemma normalize_folded env d :
  folded env d = true -> distinct d = true ->
  exists d', normalize env false (PyDict d) = inr (PyDict d') /\
    distinct d' = true /\
    forall t, lookup (KStr t) d' =
      if str_islower env t then lookup (KStr t) d else None.
Proof.
  intros Hf Hd.
  destruct (normalize_lookup env d (folded_str_keyed env d Hf) Hd)
    as (d' & Hrun & Hd' & Hacc & Hrej & _).
  exists d'. split; [exact Hrun|]. split; [exact Hd'|]. intros t.
  destruct (str_islower env t) eqn:Et.
  - rewrite (Hacc t Et), (shifted_folded env d t Hf Et). reflexivity.
  - apply (Hrej t Et). intros s Hin _ Hl.
    apply (folded_mem env d _ Hf) in Hin. simpl in Hin.
    apply String.eqb_eq in Hin. congruence.
Qed.

(** [__init__] reads the file system at the storage path only. *)
Lemma init_reads_one_path env files files' plugin_name fname mode cs :
  files !! dirize env fname = files' !! dirize env fname ->
  __init__ env files plugin_name fname mode cs
  = __init__ env files' plugin_name fname mode cs.
Proof.
  intros H. unfold __init__, load_db, open_rb. rewrite H. reflexivity.
Qed.

Lemma init_well_formed env files plugin_name fname mode cs o :
  storage_state files (dirize env fname) = WellFormed o ->
  __init__ env files plugin_name fname mode cs =
    match normalize env cs o with
    | inl e => inl e
    | inr o' =>
        inr {| db := o'; _plugin_name := plugin_name; filename := dirize env fname;
               case_sensitive := cs; addressing_mode := mode |}
    end.
Proof.
  intros H. unfold __init__. rewrite load_db_state, H. simpl.
  destruct (normalize env cs o); reflexivity.
Qed.

End InitMore.

Section ConstructionMore.
Import Dict DictFacts InitFacts DictMore ShiftMore InitMore.

(** X1: After a case-insensitive load of a dictionary with [str] keys, a key
    [t] that [islower] accepts maps to the value of the last key of the
    file, in its order, that [islower] rejects and that lowercases to [t],
    or to the value the file has under [t] itself when there is no such
    key.  A key that [islower] rejects is not in the mapping, unless another
    key that [islower] rejects lowercases to it.  Nothing is assumed of
    [str.lower] and [str.islower]. *)
Theorem load_last_shifted_wins env files plugin_name fname mode d :
  storage_state files (dirize env fname) = WellFormed (PyDict d) ->
  str_keyed d = true -> distinct d = true ->
  exists a d',
    __init__ env files plugin_name fname mode false = inr a /\
    db a = PyDict d' /\
    (forall t, str_islower env t = true ->
       lookup (KStr t) d' =
         match shifted env d t with
         | Some v => Some v
         | None => lookup (KStr t) d
         end) /\
    (forall t, str_islower env t = false ->
       (forall s, mem (KStr s) d = true -> str_islower env s = false ->
          str_lower env s = t -> s = t) ->
       lookup (KStr t) d' = None).
Proof.
  intros Hfile Hs Hd.
  destruct (normalize_lookup env d Hs Hd) as (d' & Hrun & _ & Hacc & Hrej & _).
  rewrite (init_well_formed _ _ _ _ _ _ _ Hfile), Hrun.
  eexists. exists d'. repeat split; assumption.
Qed.

Lemma load_last_shifted_wins_witness :
  exists a d',
    __init__ quiet_env
      (pickled_at "data/accounts.db"
         (PyDict [(KStr "BOB", PyInt 1); (KStr "bob", PyInt 2); (KStr "Bob", PyInt 3);
                  (KStr "amy", PyInt 4); (KStr "42", PyInt 5)]))
      "Plugin" "accounts.db" "nicks" false = inr a /\
    db a = PyDict d' /\
    lookup (KStr "bob") d' = Some (PyInt 3) /\
    lookup (KStr "amy") d' = Some (PyInt 4) /\
    lookup (KStr "42") d' = None.
Proof.
  destruct (load_last_shifted_wins quiet_env
              (pickled_at "data/accounts.db"
                 (PyDict [(KStr "BOB", PyInt 1); (KStr "bob", PyInt 2);
                          (KStr "Bob", PyInt 3); (KStr "amy", PyInt 4);
                          (KStr "42", PyInt 5)]))
              "Plugin" "accounts.db" "nicks"
              [(KStr "BOB", PyInt 1); (KStr "bob", PyInt 2); (KStr "Bob", PyInt 3);
               (KStr "amy", PyInt 4); (KStr "42", PyInt 5)]
              eq_refl eq_refl eq_refl) as (a & d' & Ha & Hd & Hacc & Hrej).
  exists a, d'. split; [exact Ha|]. split; [exact Hd|]. split; [|split].
  - rewrite (Hacc "bob" eq_refl). reflexivity.
  - rewrite (Hacc "amy" eq_refl). reflexivity.
  - apply (Hrej "42" eq_refl). intros s Hin Hs Hl.
    unfold mem in Hin. simpl in Hin.
    repeat (destruct (decide _) as [[= <-]|_] in Hin;
            [first [reflexivity | discriminate]|]).
    discriminate.
Defined.

(** X2: Loading a second time keeps the entries whose key [islower] accepts
    and no other: a file that holds the mapping of a store built by a
    case-insensitive load builds a store with exactly those entries of it,
    values unchanged, when a string that [islower] accepts is its own
    lowercase form and lowercasing twice is lowercasing once. *)
Theorem reload_keeps_islower_keys env files plugin_name fname mode d :
  islower_is_fixed env -> lower_idempotent env ->
  storage_state files (dirize env fname) = WellFormed (PyDict d) ->
  str_keyed d = true -> distinct d = true ->
  exists a d',
    __init__ env files plugin_name fname mode false = inr a /\
    db a = PyDict d' /\
    forall files',
      storage_state files' (dirize env fname) = WellFormed (PyDict d') ->
      exists a' d'',
        __init__ env files' plugin_name fname mode false = inr a' /\
        db a' = PyDict d'' /\
        forall t, lookup (KStr t) d'' =
          if str_islower env t then lookup (KStr t) d' else None.
Proof.
  intros P1 P2 Hfile Hs Hd.
  destruct (normalize_str_dict env d Hs Hd) as (d' & Hrun & Hd' & _).
  pose proof (normalize_fixed env d d' P1 P2 Hs Hd Hrun) as Hfix.
  rewrite (init_well_formed _ _ _ _ _ _ _ Hfile), Hrun.
  eexists. exists d'. split; [reflexivity|]. split; [reflexivity|].
  intros files' Hfile'.
  destruct (normalize_folded env d' (folded_of_mem env d' Hfix) Hd')
    as (d'' & Hrun' & _ & Hl).
  rewrite (init_well_formed _ _ _ _ _ _ _ Hfile'), Hrun'.
  eexists. exists d''. repeat split. exact Hl.
Qed.

Lemma reload_keeps_islower_keys_witness :
  exists a d',
    __init__ quiet_env
      (pickled_at "data/accounts.db" (PyDict [(KStr "Bob", PyInt 1); (KStr "Amy", PyInt 2)]))
      "Plugin" "accounts.db" "nicks" false = inr a /\
    db a = PyDict d' /\
    exists a' d'',
      __init__ quiet_env (pickled_at "data/accounts.db" (PyDict d'))
        "Plugin" "accounts.db" "nicks" false = inr a' /\
      db a' = PyDict d'' /\
      forall t, lookup (KStr t) d'' =
        if str_islower quiet_env t then lookup (KStr t) d' else None.
Proof.
  destruct (reload_keeps_islower_keys quiet_env
              (pickled_at "data/accounts.db"
                 (PyDict [(KStr "Bob", PyInt 1); (KStr "Amy", PyInt 2)]))
              "Plugin" "accounts.db" "nicks"
              [(KStr "Bob", PyInt 1); (KStr "Amy", PyInt 2)]
              (ascii_islower_is_fixed quiet_env eq_refl eq_refl)
              (ascii_lower_idempotent quiet_env eq_refl)
              eq_refl eq_refl eq_refl) as (a & d' & Ha & Hd & Hre).
  exists a, d'. split; [exact Ha|]. split; [exact Hd|]. apply Hre.
  unfold storage_state, pickled_at. simpl.
  rewrite lookup_singleton_eq. reflexivity.
Defined.

End ConstructionMore.
(** ** Further properties of [get] and [set] *)

Module StoreMore.
Import DictFacts StrFacts InitFacts KeyFacts StoreFacts DictMore.

Lemma get_key_fs env p st : fs (snd (_get_key env p st)) = fs st.
Proof. destruct (get_key_snd env p st) as [-> | ->]; reflexivity. Qed.

(** The object after a [set] that resolves, when [self.db] is a dictionary. *)
Lemma set_self_dict env p v st d k :
  db (self st) = PyDict d -> key_of env (self st) p = inr k ->
  self (snd (set env p v st)) = with_db (PyDict (Dict.setitem (KStr k) v d)) (self st).
Proof.
  intros Hd Hk. rewrite set_run, Hk. unfold db_setitem.
  rewrite (get_key_self env p st), Hd. simpl.
  rewrite ?(get_key_self env p st). reflexivity.
Qed.

Lemma key_of_with_db env o a p : key_of env (with_db o a) p = key_of env a p.
Proof. apply key_of_attrs; reflexivity. Qed.

Lemma get_fst env p st :
  fst (get env p st) =
    match key_of env (self st) p with
    | inl e => inl e
    | inr k =>
        match db (self st) with
        | PyDict d => inr (Dict.get (KStr k) d)
        | o => inl (no_attribute (type_name o) "get")
        end
    end.
Proof.
  rewrite get_run. destruct (key_of env (self st) p) as [e|k]; [reflexivity|].
  unfold db_get. rewrite (get_key_self env p st).
  destruct (db (self st)); reflexivity.
Qed.

Lemma set_fs env p v st : fs (snd (set env p v st)) = fs st.
Proof.
  rewrite set_run. destruct (key_of env (self st) p) as [e|k]; simpl.
  - apply get_key_fs.
  - unfold db_setitem.
    destruct (db (self (snd (_get_key env p st)))); simpl; apply get_key_fs.
Qed.

Lemma get_fs env p st : fs (snd (get env p st)) = fs st.
Proof.
  rewrite get_run. destruct (key_of env (self st) p) as [e|k]; simpl.
  - apply get_key_fs.
  - unfold db_get.
    destruct (db (self (snd (_get_key env p st)))); simpl; apply get_key_fs.
Qed.

(** In a case-insensitive store the canonical key is its own lowercase
    form, when lowercasing twice is lowercasing once. *)
Lemma key_of_fixed env a p k :
  lower_idempotent env ->
  case_sensitive a = false -> key_of env a p = inr k -> str_lower env k = k.
Proof.
  intros P2 Hc. unfold key_of, canonical_key, bind, gets, ret.
  pose proof (get_key_self env p (state_of a)) as Hs.
  destruct (_get_key env p (state_of a)) as [[e|u] st1]; simpl in *; [discriminate|].
  rewrite Hs, Hc. simpl. intros [= <-]. apply P2.
Qed.

Lemma folded_no_variants env d k1 k2 :
  folded env d = true -> Dict.mem k1 d = true -> Dict.mem k2 d = true ->
  ~ case_variants env k1 k2.
Proof.
  intros Hf H1 H2. apply fixed_not_variants; apply (folded_mem env d); assumption.
Qed.

(** A call keeps a case-insensitive store on a dictionary with distinct
    keys that are their own lowercase form. *)
Lemma run_call_folded env c st d :
  lower_idempotent env ->
  case_sensitive (self st) = false ->
  db (self st) = PyDict d -> folded env d = true -> Dict.distinct d = true ->
  case_sensitive (self (run_call env c st)) = false /\
  exists d', db (self (run_call env c st)) = PyDict d' /\
    folded env d' = true /\ Dict.distinct d' = true.
Proof.
  intros P2 Hc Hd Hf Hdi. destruct c as [p v|p|]; simpl.
  - destruct (key_of env (self st) p) as [e|k] eqn:Ek.
    + rewrite (set_failed_self _ _ _ _ _ Ek). eauto.
    + rewrite (set_self_dict env p v st d k Hd Ek). simpl. split; [exact Hc|].
      eexists. split; [reflexivity|]. split.
      * apply folded_setitem; [exact Hf|]. simpl.
        apply String.eqb_eq, (key_of_fixed env (self st) p k P2 Hc Ek).
      * apply distinct_setitem. exact Hdi.
  - rewrite get_self. eauto.
  - rewrite flush_self. eauto.
Qed.

Lemma run_calls_folded env cs : forall st d,
  lower_idempotent env ->
  case_sensitive (self st) = false ->
  db (self st) = PyDict d -> folded env d = true -> Dict.distinct d = true ->
  exists d', db (self (run_calls env cs st)) = PyDict d' /\
    folded env d' = true /\ Dict.distinct d' = true.
Proof.
  induction cs as [|c r IH]; intros st d P2 Hc Hd Hf Hdi; simpl; [eauto|].
  destruct (run_call_folded env c st d P2 Hc Hd Hf Hdi)
    as (Hc' & d1 & Hd1 & Hf1 & Hdi1).
  exact (IH _ d1 P2 Hc' Hd1 Hf1 Hdi1).
Qed.

Lemma run_calls_fs env cs : forall st,
  forallb (fun c => negb (is_flush c)) cs = true ->
  fs (run_calls env cs st) = fs st.
Proof.
  induction cs as [|c r IH]; intros st H; simpl in *; [reflexivity|].
  apply andb_true_iff in H as [Hc Hr]. rewrite (IH _ Hr).
  destruct c; simpl in *; [apply set_fs | apply get_fs | discriminate].
Qed.

Lemma mode_unknown mode :
  ~ In mode MODES ->
  String.eqb mode "accounts" = false /\ String.eqb mode "identhost" = false /\
  String.eqb mode "nicks" = false.
Proof.
  intros H. repeat split; apply String.eqb_neq; intros ->; apply H; simpl; auto.
Qed.

End StoreMore.

Section StoreMoreTheorems.
Import DictFacts StrFacts KeyFacts StoreFacts DictMore StoreMore.

(** X3: A second [set] through the same prefix overwrites the first: the object
    is the one a single [set] of the second value gives, and [get] returns
    the second value. *)
Theorem set_twice_overwrites env st d p v1 v2 k :
  db (self st) = PyDict d ->
  key_of env (self st) p = inr k ->
  self (snd (set env p v2 (snd (set env p v1 st)))) = self (snd (set env p v2 st)) /\
  fst (get env p (snd (set env p v2 (snd (set env p v1 st))))) = inr v2.
Proof.
  intros Hd Hk.
  pose proof (set_self_dict env p v1 st d k Hd Hk) as H1.
  assert (Hd1 : db (self (snd (set env p v1 st)))
                = PyDict (Dict.setitem (KStr k) v1 d)) by (rewrite H1; reflexivity).
  assert (Hk1 : key_of env (self (snd (set env p v1 st))) p = inr k)
    by (rewrite H1, key_of_with_db; exact Hk).
  pose proof (set_self_dict env p v2 _ _ k Hd1 Hk1) as H2.
  pose proof (set_self_dict env p v2 st d k Hd Hk) as H2'.
  split.
  - rewrite H2, H2', H1, setitem_setitem. reflexivity.
  - rewrite get_fst, H2, key_of_with_db, H1, key_of_with_db, Hk. simpl.
    rewrite get_setitem_eq. reflexivity.
Qed.

Lemma set_twice_overwrites_witness :
  self (snd (set quiet_env "Bob!b@host" (PyInt 2)
               (snd (set quiet_env "Bob!b@host" (PyInt 1) unsaved_state))))
    = self (snd (set quiet_env "Bob!b@host" (PyInt 2) unsaved_state)) /\
  fst (get quiet_env "Bob!b@host"
         (snd (set quiet_env "Bob!b@host" (PyInt 2)
                 (snd (set quiet_env "Bob!b@host" (PyInt 1) unsaved_state)))))
    = inr (PyInt 2).
Proof.
  apply (set_twice_overwrites quiet_env unsaved_state
           [(KStr "bob", PyStr "bob42")] "Bob!b@host" (PyInt 1) (PyInt 2) "bob");
    reflexivity.
Defined.

(** X4: A [set] changes what [get] answers for its own canonical key only: for
    a prefix that does not resolve to that key, [get] answers after the
    [set] what it answered before, result or error. *)
Theorem set_leaves_other_keys env st d p v k q :
  db (self st) = PyDict d ->
  key_of env (self st) p = inr k ->
  key_of env (self st) q <> inr k ->
  fst (get env q (snd (set env p v st))) = fst (get env q st).
Proof.
  intros Hd Hk Hq.
  rewrite !get_fst, (set_self_dict env p v st d k Hd Hk), key_of_with_db, Hd.
  simpl. destruct (key_of env (self st) q) as [e|k']; [reflexivity|].
  rewrite get_setitem_ne; [reflexivity|]. congruence.
Qed.

Lemma set_leaves_other_keys_witness :
  fst (get quiet_env "bob!b@host"
         (snd (set quiet_env "amy!a@host" (PyInt 1) unsaved_state)))
    = fst (get quiet_env "bob!b@host" unsaved_state).
Proof.
  apply (set_leaves_other_keys quiet_env unsaved_state
           [(KStr "bob", PyStr "bob42")] "amy!a@host" (PyInt 1) "amy" "bob!b@host");
    [reflexivity | reflexivity | discriminate].
Defined.

(** X5: A [set] never removes an entry, and it adds one exactly when its
    canonical key was not a key of the mapping. *)
Theorem set_grows_by_at_most_one env st d p v k :
  db (self st) = PyDict d ->
  key_of env (self st) p = inr k ->
  exists d',
    db (self (snd (set env p v st))) = PyDict d' /\
    (forall key, Dict.mem key d = true -> Dict.mem key d' = true) /\
    length d' = if Dict.mem (KStr k) d then length d else S (length d).
Proof.
  intros Hd Hk. rewrite (set_self_dict env p v st d k Hd Hk). simpl.
  eexists. split; [reflexivity|]. split.
  - intros key. apply mem_setitem_mono_l.
  - apply length_setitem.
Qed.

Lemma set_grows_by_at_most_one_witness :
  exists d',
    db (self (snd (set quiet_env "amy!a@host" (PyInt 1) unsaved_state))) = PyDict d' /\
    (forall key, Dict.mem key [(KStr "bob", PyStr "bob42")] = true ->
       Dict.mem key d' = true) /\
    length d' = 2.
Proof.
  apply (set_grows_by_at_most_one quiet_env unsaved_state
           [(KStr "bob", PyStr "bob42")] "amy!a@host" (PyInt 1) "amy");
    reflexivity.
Defined.

(** X6: Two prefixes with the same canonical key share one entry: what is set
    through one is read through the other. *)
Theorem same_key_same_entry env st d p q v k :
  db (self st) = PyDict d ->
  key_of env (self st) p = inr k ->
  key_of env (self st) q = inr k ->
  fst (get env q (snd (set env p v st))) = inr v.
Proof.
  intros Hd Hp Hq.
  rewrite get_fst, (set_self_dict env p v st d k Hd Hp), key_of_with_db, Hq.
  simpl. rewrite get_setitem_eq. reflexivity.
Qed.

Lemma same_key_same_entry_witness :
  fst (get quiet_env "bob!bob@home.example"
         (snd (set quiet_env "Bob!b@work.example" (PyInt 7) unsaved_state)))
    = inr (PyInt 7).
Proof.
  apply (same_key_same_entry quiet_env unsaved_state
           [(KStr "bob", PyStr "bob42")] "Bob!b@work.example" "bob!bob@home.example"
           (PyInt 7) "bob");
    reflexivity.
Defined.

(** X7: With a mode that is not in [MODES], a prefix that has a ['!'] makes
    [_get_key], [get] and [set] raise the [ValueError] of the last branch,
    whose message ends with the [repr] of the mode; the state is the one
    before the call and no lookup is made. *)
Theorem unknown_mode_is_rejected env st p v :
  Str.contains "!" p = true ->
  ~ In (addressing_mode (self st)) MODES ->
  _get_key env p st = (inl (unknown_mode env (addressing_mode (self st))), st) /\
  get env p st = (inl (unknown_mode env (addressing_mode (self st))), st) /\
  set env p v st = (inl (unknown_mode env (addressing_mode (self st))), st).
Proof.
  intros Hp Hm. destruct (cut_some _ _ Hp) as (nick & ih & Hcut).
  destruct (mode_unknown _ Hm) as (H1 & H2 & H3).
  assert (Hkey : _get_key env p st
                 = (inl (unknown_mode env (addressing_mode (self st))), st)).
  { rewrite (get_key_cut _ _ _ _ _ Hcut). simpl. rewrite H1, H2, H3. reflexivity. }
  split; [exact Hkey|]. unfold get, set, bind. rewrite Hkey. split; reflexivity.
Qed.

Lemma unknown_mode_is_rejected_witness :
  _get_key directory_env "alice!alice@example.org" (state_of (empty_store "it's" false))
    = (inl (Exn ValueError
              (String.append "Unknown addressing mode "
                 (String Str.double_quote (String.append "it's"
                    (String Str.double_quote EmptyString))))),
       state_of (empty_store "it's" false)) /\
  get directory_env "alice!alice@example.org" (state_of (empty_store "hostmask" false))
    = (inl (Exn ValueError "Unknown addressing mode 'hostmask'"),
       state_of (empty_store "hostmask" false)) /\
  set directory_env "alice!alice@example.org" (PyInt 1)
      (state_of (empty_store "hostmask" false))
    = (inl (Exn ValueError "Unknown addressing mode 'hostmask'"),
       state_of (empty_store "hostmask" false)).
Proof.
  split.
  - apply (unknown_mode_is_rejected directory_env
             (state_of (empty_store "it's" false)) "alice!alice@example.org" (PyInt 1)).
    + reflexivity.
    + simpl. intros [H|[H|[H|[]]]]; discriminate.
  - apply (unknown_mode_is_rejected directory_env
             (state_of (empty_store "hostmask" false)) "alice!alice@example.org"
             (PyInt 1)).
    + reflexivity.
    + simpl. intros [H|[H|[H|[]]]]; discriminate.
Defined.

(** X8: [_get_key] accepts exactly the strings of [MODES]: on a prefix with a
    ['!'] whose lookup answers or raises [KeyError], it returns a key if and
    only if the mode of the store is one of them. *)
Theorem modes_are_the_accepted_modes env st p :
  Str.contains "!" p = true ->
  (forall e, getUser env p = inl e -> is_KeyError e = true) ->
  (exists k, fst (_get_key env p st) = inr k) <-> In (addressing_mode (self st)) MODES.
Proof.
  intros Hp Hu. destruct (cut_some _ _ Hp) as (nick & ih & Hcut).
  rewrite (get_key_cut _ _ _ _ _ Hcut). simpl. split.
  - intros [k Hk].
    destruct (String.eqb (addressing_mode (self st)) "accounts") eqn:E1;
      [apply String.eqb_eq in E1; rewrite E1; simpl; auto|].
    destruct (String.eqb (addressing_mode (self st)) "identhost") eqn:E2;
      [apply String.eqb_eq in E2; rewrite E2; simpl; auto|].
    destruct (String.eqb (addressing_mode (self st)) "nicks") eqn:E3;
      [apply String.eqb_eq in E3; rewrite E3; simpl; auto|].
    discriminate.
  - intros [<-|[<-|[<-|[]]]]; simpl; eauto.
    destruct (getUser env p) as [e|name] eqn:E; simpl; eauto.
    rewrite (Hu e eq_refl). eauto.
Qed.

Lemma modes_are_the_accepted_modes_witness :
  (exists k, fst (_get_key directory_env "bob!bob@example.org"
                    (state_of (empty_store "identhost" false))) = inr k)
  <-> In "identhost" MODES.
Proof.
  apply (modes_are_the_accepted_modes directory_env
           (state_of (empty_store "identhost" false)) "bob!bob@example.org").
  - reflexivity.
  - intros e [= <-]. reflexivity.
Defined.

(** X9: With the mode [accounts], a lookup that fails with something else than
    [KeyError] makes [get] and [set] raise that exception; the lookup is
    recorded and the object is the one before the call. *)
Theorem lookup_failure_reaches_the_caller env st p v e :
  Str.contains "!" p = true ->
  addressing_mode (self st) = "accounts" ->
  getUser env p = inl e -> is_KeyError e = false ->
  get env p st = (inl e, looked_up p st) /\
  set env p v st = (inl e, looked_up p st).
Proof.
  intros Hp Hm Hu He. destruct (cut_some _ _ Hp) as (nick & ih & Hcut).
  assert (Hkey : _get_key env p st = (inl e, looked_up p st)).
  { rewrite (get_key_cut _ _ _ _ _ Hcut). simpl. rewrite Hm, Hu, He. reflexivity. }
  unfold get, set, bind. rewrite Hkey. split; reflexivity.
Qed.

Lemma lookup_failure_reaches_the_caller_witness :
  get directory_env "eve!eve@example.org" (state_of (empty_store "accounts" false))
    = (inl (Exn RuntimeError "user database is locked"),
       looked_up "eve!eve@example.org" (state_of (empty_store "accounts" false))) /\
  set directory_env "eve!eve@example.org" (PyInt 1) (state_of (empty_store "accounts" false))
    = (inl (Exn RuntimeError "user database is locked"),
       looked_up "eve!eve@example.org" (state_of (empty_store "accounts" false))).
Proof.
  apply (lookup_failure_reaches_the_caller directory_env
           (state_of (empty_store "accounts" false)) "eve!eve@example.org" (PyInt 1));
    reflexivity.
Defined.

(** X10: Only [flush] writes: after any calls of [get] and [set] the file system
    is the one before them, so a store opened then loads what it would have
    loaded before. *)
Theorem only_flush_writes env st calls plugin_name fname mode cs :
  forallb (fun c => negb (is_flush c)) calls = true ->
  fs (run_calls env calls st) = fs st /\
  __init__ env (fs (run_calls env calls st)) plugin_name fname mode cs
  = __init__ env (fs st) plugin_name fname mode cs.
Proof.
  intros H. rewrite (run_calls_fs env calls st H). split; reflexivity.
Qed.

Lemma only_flush_writes_witness :
  fs (run_calls quiet_env
        [Call_set "amy!a@host" (PyInt 1); Call_get "bob!b@host"; Call_set "x" PyNone]
        unsaved_state) = fs unsaved_state /\
  __init__ quiet_env
    (fs (run_calls quiet_env
           [Call_set "amy!a@host" (PyInt 1); Call_get "bob!b@host"; Call_set "x" PyNone]
           unsaved_state)) "Plugin" "accounts.db" "nicks" false
  = __init__ quiet_env (fs unsaved_state) "Plugin" "accounts.db" "nicks" false.
Proof.
  apply (only_flush_writes quiet_env unsaved_state
           [Call_set "amy!a@host" (PyInt 1); Call_get "bob!b@host"; Call_set "x" PyNone]
           "Plugin" "accounts.db" "nicks" false).
  reflexivity.
Defined.

(** X11: When the object loaded by a case-sensitive construction is not a
    dictionary, every [get] on a prefix that resolves raises
    [AttributeError] and every [set] raises [TypeError]; the object is the
    one before the call. *)
Theorem non_dict_store_fails env st p v k :
  is_dict (db (self st)) = false ->
  key_of env (self st) p = inr k ->
  fst (get env p st) = inl (no_attribute (type_name (db (self st))) "get") /\
  self (snd (get env p st)) = self st /\
  (exists e, fst (set env p v st) = inl e /\ exn_cls e = TypeError) /\
  self (snd (set env p v st)) = self st.
Proof.
  intros Hd Hk. split; [|split; [apply get_self|]].
  - rewrite get_fst, Hk. destruct (db (self st)); try reflexivity. discriminate.
  - rewrite set_run, Hk. unfold db_setitem. rewrite (get_key_self env p st).
    destruct (db (self st)); try discriminate;
      (split; [eexists; split; reflexivity | apply get_key_self]).
Qed.

Lemma non_dict_store_fails_witness :
  fst (get quiet_env "bob!b@host"
         (state_of (with_db (PyList [PyInt 1]) (empty_store "nicks" true))))
    = inl (Exn AttributeError "'list' object has no attribute 'get'") /\
  self (snd (get quiet_env "bob!b@host"
         (state_of (with_db (PyList [PyInt 1]) (empty_store "nicks" true)))))
    = with_db (PyList [PyInt 1]) (empty_store "nicks" true) /\
  (exists e,
     fst (set quiet_env "bob!b@host" (PyInt 2)
            (state_of (with_db (PyList [PyInt 1]) (empty_store "nicks" true)))) = inl e /\
     exn_cls e = TypeError) /\
  self (snd (set quiet_env "bob!b@host" (PyInt 2)
         (state_of (with_db (PyList [PyInt 1]) (empty_store "nicks" true)))))
    = with_db (PyList [PyInt 1]) (empty_store "nicks" true).
Proof.
  apply (non_dict_store_fails quiet_env
           (state_of (with_db (PyList [PyInt 1]) (empty_store "nicks" true)))
           "bob!b@host" (PyInt 2) "bob");
    reflexivity.
Defined.

End StoreMoreTheorems.

(** ** Further properties of [flush] and of the life of a store *)

Module FlushMore.
Import DictFacts StrFacts InitFacts StoreFacts DictMore ShiftMore InitMore StoreMore.

(** A flush in which nothing fails leaves the pickle of the mapping at the
    storage path, with the permissions of the temporary file. *)
Lemma flush_storage_ok env st :
  no_faults env = true ->
  storage_state (fs (snd (flush env st))) (filename (self st)) =
    if tmp_usable (fs st) (filename (self st)) then WellFormed (db (self st))
    else Unreadable.
Proof.
  unfold no_faults. intros H.
  destruct (open_fault env) eqn:Eo; [discriminate|].
  destruct (dump_fault env) eqn:Ed; [discriminate|].
  destruct (move_fault env) eqn:Em; [discriminate|].
  unfold flush, bind, gets, try_except, open_wb, pickle_dump, shutil_move, ret.
  rewrite Eo, Ed, Em. simpl. unfold written. rewrite !lookup_insert_eq. simpl.
  unfold storage_state. rewrite lookup_insert_eq. simpl. unfold tmp_usable.
  reflexivity.
Qed.

(** A flush that fails before the move leaves the storage path alone. *)
Lemma flush_fs_early env st :
  fails_before_move env = true ->
  fs (snd (flush env st)) !! filename (self st) = fs st !! filename (self st).
Proof.
  unfold fails_before_move. intros H.
  pose proof (append_tmp_ne (filename (self st))) as Htmp.
  unfold flush, bind, gets, try_except, open_wb, pickle_dump, shutil_move, ret.
  destruct (open_fault env) as [eo|]; [reflexivity|].
  destruct (dump_fault env) as [[ed partial]|]; [|discriminate].
  simpl. rewrite !lookup_written_ne by exact Htmp. reflexivity.
Qed.

Lemma init_load_fails env files plugin_name fname mode cs :
  match storage_state files (dirize env fname) with
  | WellFormed _ => True
  | _ =>
      __init__ env files plugin_name fname mode cs
      = inr {| db := PyDict []; _plugin_name := plugin_name;
               filename := dirize env fname; case_sensitive := cs;
               addressing_mode := mode |}
  end.
Proof.
  unfold __init__. rewrite load_db_state.
  destruct (storage_state files (dirize env fname)); first [reflexivity | exact I].
Qed.

End FlushMore.

Section Life.
Import DictFacts StrFacts KeyFacts InitFacts StoreFacts DictMore ShiftMore InitMore StoreMore FlushMore.

(** X12: A case-insensitive store never holds two keys that differ only by
    case: when it is built from a file that is absent, unreadable or
    corrupt, or that holds a dictionary with [str] keys, its mapping is,
    after any calls of [get], [set] and [flush], a dictionary with distinct
    keys of which no two differ only by case.  Of [str.lower] and
    [str.islower] the proof uses that a string [islower] accepts is its own
    lowercase form and that lowercasing twice is lowercasing once. *)
Theorem case_insensitive_store_has_no_variants env files plugin_name fname mode :
  islower_is_fixed env -> lower_idempotent env ->
  loads_cleanly false (storage_state files (dirize env fname)) = true ->
  exists a,
    __init__ env files plugin_name fname mode false = inr a /\
    forall files' lookups calls,
    exists d',
      db (self (run_calls env calls
                  {| self := a; fs := files'; getUser_calls := lookups |})) = PyDict d' /\
      Dict.distinct d' = true /\
      forall k1 k2, Dict.mem k1 d' = true -> Dict.mem k2 d' = true ->
        ~ case_variants env k1 k2.
Proof.
  intros P1 P2 Hok.
  assert (Hinit : exists a d0,
            __init__ env files plugin_name fname mode false = inr a /\
            case_sensitive a = false /\ db a = PyDict d0 /\
            folded env d0 = true /\ Dict.distinct d0 = true).
  { pose proof (init_load_fails env files plugin_name fname mode false) as Hfail.
    destruct (storage_state files (dirize env fname)) as [| | |o] eqn:Es;
      try (eexists; exists []; rewrite Hfail; repeat split; reflexivity).
    simpl in Hok. destruct o as [| | | |d]; try discriminate. simpl in Hok.
    apply andb_true_iff in Hok as [Hs Hd].
    destruct (normalize_str_dict env d Hs Hd) as (d' & Hrun & Hd' & _).
    pose proof (normalize_fixed env d d' P1 P2 Hs Hd Hrun) as Hfix.
    rewrite (init_well_formed _ _ _ _ _ _ _ Es), Hrun.
    eexists. exists d'. repeat split; [|exact Hd'].
    apply folded_of_mem. exact Hfix. }
  destruct Hinit as (a & d0 & Ha & Hc & Hd0 & Hf0 & Hdi0).
  exists a. split; [exact Ha|]. intros files' lookups calls.
  destruct (run_calls_folded env calls
              {| self := a; fs := files'; getUser_calls := lookups |} d0
              P2 Hc Hd0 Hf0 Hdi0)
    as (d' & Hd' & Hf' & Hdi').
  exists d'. split; [exact Hd'|]. split; [exact Hdi'|].
  intros k1 k2. apply (folded_no_variants env d'). exact Hf'.
Qed.

Lemma case_insensitive_store_has_no_variants_witness :
  exists a,
    __init__ quiet_env
      (pickled_at "data/accounts.db" (PyDict [(KStr "Bob", PyInt 1); (KStr "bob", PyInt 2)]))
      "Plugin" "accounts.db" "nicks" false = inr a /\
    exists d',
      db (self (run_calls quiet_env
                  [Call_set "BOB!b@host" (PyInt 3); Call_flush; Call_set "Amy!a@host" (PyInt 4)]
                  {| self := a; fs := ∅; getUser_calls := [] |})) = PyDict d' /\
      Dict.distinct d' = true /\
      forall k1 k2, Dict.mem k1 d' = true -> Dict.mem k2 d' = true ->
        ~ case_variants quiet_env k1 k2.
Proof.
  destruct (case_insensitive_store_has_no_variants quiet_env
              (pickled_at "data/accounts.db"
                 (PyDict [(KStr "Bob", PyInt 1); (KStr "bob", PyInt 2)]))
              "Plugin" "accounts.db" "nicks"
              (ascii_islower_is_fixed quiet_env eq_refl eq_refl)
              (ascii_lower_idempotent quiet_env eq_refl) eq_refl)
    as (a & Ha & Hinv).
  exists a. split; [exact Ha|]. apply Hinv.
Defined.

(** X13: Flush and reopen, case-sensitive: when no step of [flush] fails, a
    case-sensitive store opened on the same file name gets the object that
    was flushed as its mapping. *)
Theorem flush_then_open_case_sensitive env st plugin_name fname mode :
  no_faults env = true ->
  tmp_usable (fs st) (filename (self st)) = true ->
  filename (self st) = dirize env fname ->
  __init__ env (fs (snd (flush env st))) plugin_name fname mode true
  = inr {| db := db (self st); _plugin_name := plugin_name;
           filename := dirize env fname; case_sensitive := true;
           addressing_mode := mode |}.
Proof.
  intros Hn Ht Hf.
  pose proof (flush_storage_ok env st Hn) as Hs. rewrite Ht, Hf in Hs.
  rewrite (init_well_formed _ _ _ _ _ _ _ Hs). reflexivity.
Qed.

Lemma flush_then_open_case_sensitive_witness :
  __init__ quiet_env (fs (snd (flush quiet_env unsaved_state)))
    "Plugin" "accounts.db" "nicks" true
  = inr {| db := PyDict [(KStr "bob", PyStr "bob42")]; _plugin_name := "Plugin";
           filename := "data/accounts.db"; case_sensitive := true;
           addressing_mode := "nicks" |}.
Proof.
  apply (flush_then_open_case_sensitive quiet_env unsaved_state
           "Plugin" "accounts.db" "nicks"); reflexivity.
Defined.

(** X14: Flush and reopen, case-insensitive: of a mapping whose keys are
    distinct and are their own lowercase form, the store opened after a
    flush in which nothing fails keeps, with their values, the entries whose
    key [islower] accepts, and loses the entries whose key it rejects (a key
    without a cased character, such as ['~42@10.0.0.1']).  Nothing is
    assumed of [str.lower] and [str.islower]. *)
Theorem flush_then_open_case_insensitive env st d plugin_name fname mode :
  no_faults env = true ->
  tmp_usable (fs st) (filename (self st)) = true ->
  filename (self st) = dirize env fname ->
  db (self st) = PyDict d -> folded env d = true -> Dict.distinct d = true ->
  exists a d',
    __init__ env (fs (snd (flush env st))) plugin_name fname mode false = inr a /\
    db a = PyDict d' /\
    forall t, Dict.lookup (KStr t) d' =
      if str_islower env t then Dict.lookup (KStr t) d else None.
Proof.
  intros Hn Ht Hf Hd Hfo Hdi.
  pose proof (flush_storage_ok env st Hn) as Hs. rewrite Ht, Hf, Hd in Hs.
  destruct (normalize_folded env d Hfo Hdi) as (d' & Hrun & _ & Hl).
  rewrite (init_well_formed _ _ _ _ _ _ _ Hs), Hrun.
  eexists. exists d'. repeat split. exact Hl.
Qed.

Lemma flush_then_open_case_insensitive_witness :
  exists a d',
    __init__ quiet_env
      (fs (snd (flush quiet_env
                  (state_of (with_db (PyDict [(KStr "bob", PyInt 1); (KStr "~42@10.0.0.1", PyInt 2)])
                               (empty_store "identhost" false))))))
      "Plugin" "accounts.db" "identhost" false = inr a /\
    db a = PyDict d' /\
    Dict.lookup (KStr "bob") d' = Some (PyInt 1) /\
    Dict.lookup (KStr "~42@10.0.0.1") d' = None.
Proof.
  destruct (flush_then_open_case_insensitive quiet_env
              (state_of (with_db (PyDict [(KStr "bob", PyInt 1); (KStr "~42@10.0.0.1", PyInt 2)])
                           (empty_store "identhost" false)))
              [(KStr "bob", PyInt 1); (KStr "~42@10.0.0.1", PyInt 2)]
              "Plugin" "accounts.db" "identhost"
              eq_refl eq_refl eq_refl eq_refl eq_refl eq_refl) as (a & d' & Ha & Hd & Hl).
  exists a, d'. split; [exact Ha|]. split; [exact Hd|].
  split; rewrite Hl; reflexivity.
Defined.

End Life.

Section Durability.
Import DictFacts StrFacts KeyFacts InitFacts StoreFacts DictMore ShiftMore InitMore StoreMore FlushMore.

(** X15: Set, flush, reopen, get, case-insensitive: in a store whose keys
    are distinct and are their own lowercase form, after [set(p, v)], a
    flush in which nothing fails and the construction of a new
    case-insensitive store on the same file with the same mode, [get(p)]
    returns [v] when [islower] accepts the canonical key of [p], and [None]
    when it rejects it (a key without a cased character).  Of [str.lower]
    the proof uses that lowercasing twice is lowercasing once. *)
Theorem set_flush_reopen_get env st d p v k plugin_name fname :
  lower_idempotent env ->
  db (self st) = PyDict d -> folded env d = true -> Dict.distinct d = true ->
  case_sensitive (self st) = false ->
  key_of env (self st) p = inr k ->
  no_faults env = true ->
  tmp_usable (fs st) (filename (self st)) = true ->
  filename (self st) = dirize env fname ->
  exists a,
    __init__ env (fs (snd (flush env (snd (set env p v st)))))
      plugin_name fname (addressing_mode (self st)) false = inr a /\
    fst (get env p (reopened a (snd (flush env (snd (set env p v st))))))
      = inr (if str_islower env k then v else PyNone).
Proof.
  intros P2 Hd Hfo Hdi Hc Hk Hn Ht Hf.
  pose proof (set_self_dict env p v st d k Hd Hk) as Hself.
  pose proof (key_of_fixed env _ _ _ P2 Hc Hk) as Hfix.
  pose proof (flush_storage_ok env (snd (set env p v st)) Hn) as Hs.
  rewrite set_fs, Hself in Hs. simpl in Hs. rewrite Ht, Hf in Hs.
  assert (Hfo1 : folded env (Dict.setitem (KStr k) v d) = true).
  { apply folded_setitem; [exact Hfo|]. simpl. apply String.eqb_eq, Hfix. }
  destruct (normalize_folded env _ Hfo1 (distinct_setitem (KStr k) v d Hdi))
    as (d' & Hrun & _ & Hl).
  rewrite (init_well_formed _ _ _ _ _ _ _ Hs), Hrun.
  eexists. split; [reflexivity|].
  assert (Hk' : forall a, addressing_mode a = addressing_mode (self st) ->
             case_sensitive a = false -> key_of env a p = inr k).
  { intros a Hm Hca. rewrite (key_of_attrs env a (self st) p Hm); [exact Hk | congruence]. }
  rewrite get_fst. unfold reopened. simpl. rewrite Hk' by reflexivity.
  unfold Dict.get. rewrite (Hl k), lookup_setitem_eq.
  destruct (str_islower env k); reflexivity.
Qed.

Lemma set_flush_reopen_get_witness :
  (exists a,
     __init__ quiet_env
       (fs (snd (flush quiet_env
                   (snd (set quiet_env "Bob!~bob@Host.EXAMPLE" (PyInt 1)
                           (state_of (empty_store "identhost" false)))))))
       "Plugin" "accounts.db" "identhost" false = inr a /\
     fst (get quiet_env "Bob!~bob@Host.EXAMPLE"
            (reopened a
               (snd (flush quiet_env
                       (snd (set quiet_env "Bob!~bob@Host.EXAMPLE" (PyInt 1)
                               (state_of (empty_store "identhost" false))))))))
       = inr (PyInt 1)) /\
  (exists a,
     __init__ quiet_env
       (fs (snd (flush quiet_env
                   (snd (set quiet_env "Bob!~42@10.0.0.1" (PyInt 1)
                           (state_of (empty_store "identhost" false)))))))
       "Plugin" "accounts.db" "identhost" false = inr a /\
     fst (get quiet_env "Bob!~42@10.0.0.1"
            (reopened a
               (snd (flush quiet_env
                       (snd (set quiet_env "Bob!~42@10.0.0.1" (PyInt 1)
                               (state_of (empty_store "identhost" false))))))))
       = inr PyNone).
Proof.
  split.
  - apply (set_flush_reopen_get quiet_env (state_of (empty_store "identhost" false))
             [] "Bob!~bob@Host.EXAMPLE" (PyInt 1) "~bob@host.example"
             "Plugin" "accounts.db" (ascii_lower_idempotent quiet_env eq_refl));
      reflexivity.
  - apply (set_flush_reopen_get quiet_env (state_of (empty_store "identhost" false))
             [] "Bob!~42@10.0.0.1" (PyInt 1) "~42@10.0.0.1"
             "Plugin" "accounts.db" (ascii_lower_idempotent quiet_env eq_refl));
      reflexivity.
Defined.

(** X16: A flush that fails before the move loses nothing that was saved: a
    store opened after it is the store that would have been opened before
    it, whatever the temporary file was left holding. *)
Theorem failed_flush_keeps_saved_store env st plugin_name fname mode cs :
  fails_before_move env = true ->
  filename (self st) = dirize env fname ->
  fst (flush env st) = inr tt /\
  __init__ env (fs (snd (flush env st))) plugin_name fname mode cs
  = __init__ env (fs st) plugin_name fname mode cs.
Proof.
  intros Hfail Hf. split; [apply flush_returns|].
  apply init_reads_one_path. rewrite <- Hf. apply flush_fs_early. exact Hfail.
Qed.

Lemma failed_flush_keeps_saved_store_witness :
  fst (flush disk_full_env unsaved_state) = inr tt /\
  __init__ disk_full_env (fs (snd (flush disk_full_env unsaved_state)))
    "Plugin" "accounts.db" "nicks" false
  = __init__ disk_full_env (fs unsaved_state) "Plugin" "accounts.db" "nicks" false.
Proof.
  apply (failed_flush_keeps_saved_store disk_full_env unsaved_state
           "Plugin" "accounts.db" "nicks" false); reflexivity.
Defined.

End Durability.

Section Failures.
Import DictFacts StrFacts KeyFacts StoreFacts StoreMore.

(** X17: [get] reads only: whether it returns or raises, the object and the
    file system are the ones before the call. *)
Theorem get_is_read_only env st p :
  self (snd (get env p st)) = self st /\ fs (snd (get env p st)) = fs st.
Proof. split; [apply get_self | apply get_fs]. Qed.

(** X18: A [set] that raises, for whatever reason (no ['!'] in the prefix, an
    unknown mode, a failed lookup, an object that is not a dictionary),
    leaves the object as it was. *)
Theorem failed_set_changes_nothing env st p v e :
  fst (set env p v st) = inl e ->
  self (snd (set env p v st)) = self st.
Proof.
  rewrite set_run. destruct (key_of env (self st) p) as [e'|k]; simpl.
  - intros _. apply get_key_self.
  - unfold db_setitem. rewrite (get_key_self env p st).
    destruct (db (self st)); simpl; intros H;
      try apply get_key_self; discriminate.
Qed.

Lemma failed_set_changes_nothing_witness :
  self (snd (set directory_env "eve!eve@example.org" (PyInt 1)
               (state_of (empty_store "accounts" false))))
    = empty_store "accounts" false.
Proof.
  apply (failed_set_changes_nothing directory_env
           (state_of (empty_store "accounts" false)) "eve!eve@example.org" (PyInt 1)
           (Exn RuntimeError "user database is locked")).
  reflexivity.
Defined.

(** X19: For a user the directory does not know, the mode [accounts] addresses
    the entry that the mode [identhost] addresses. *)
Theorem accounts_falls_back_to_identhost env a a' p e :
  Str.contains "!" p = true ->
  getUser env p = inl e -> is_KeyError e = true ->
  addressing_mode a = "accounts" -> addressing_mode a' = "identhost" ->
  case_sensitive a = case_sensitive a' ->
  exists k, key_of env a p = inr k /\ key_of env a' p = inr k.
Proof.
  intros Hp Hu He Hm Hm' Hc. destruct (cut_some _ _ Hp) as (nick & ih & Hcut).
  unfold key_of, canonical_key, bind, gets, ret.
  rewrite !(get_key_cut _ _ _ _ _ Hcut). simpl.
  rewrite Hm, Hm'. simpl. rewrite Hu, He. simpl. rewrite Hc. eauto.
Qed.

Lemma accounts_falls_back_to_identhost_witness :
  exists k,
    key_of directory_env (empty_store "accounts" false) "Bob!bob@Example.org" = inr k /\
    key_of directory_env (empty_store "identhost" false) "Bob!bob@Example.org" = inr k.
Proof.
  apply (accounts_falls_back_to_identhost directory_env
           (empty_store "accounts" false) (empty_store "identhost" false)
           "Bob!bob@Example.org" (Exn KeyError "Bob!bob@Example.org"));
    reflexivity.
Defined.

End Failures.
